(** * Video-clipping helpers (utils.py): a shallow embedding and its properties

    The module under study has four helpers: [download_youtube],
    [generate_subtitles], [save_clip] and [apply_filter].  Every helper is a
    linear sequence of calls into external libraries wrapped in one
    [try]/[except].  The embedding keeps that shape: external calls are
    oracles of a "world" record, exceptions are values of an error monad
    that also threads the state of the file system, and the arithmetic the
    helpers do themselves (chunking, cropping, re-timing, filter dispatch)
    is translated line by line, as are the file name and path that
    [download_youtube] builds.

    Numbers.  Python [int]s are [Z].  Python [float]s (seconds, aspect
    ratios) are modelled by exact rationals [Q]; truncation [int(x)] is
    [Py.int].  Equalities between times are therefore stated with [==].
    Rounding is not modelled there.  Module [Binary64] repeats the cropping
    and the re-timing arithmetic on IEEE 754 binary64 numbers:
    [binary64_crop_agrees] checks that the cropping takes the same
    decisions on frame sizes, and the section on re-timing shows where
    rounding makes a caption's range differ from the exact one.

    Libraries.  What the helpers rely on from moviepy 1.x is written into
    the model: [crop] reads an upper bound of [0] as the far edge of the
    frame, and the transforms module has no [sepia], [vignette] or
    [gaussian_blur].  Whether a call into a library raises is otherwise an
    oracle of the world.  The state threaded through [save_clip] and
    [apply_filter] records the encodings asked of [write_videofile], not
    what the encoder leaves on disk. *)

From Stdlib Require Import ZArith QArith Qround Qminmax Lia Lqa Bool.
From Stdlib Require Import List Sorted.
From Stdlib Require Floats Uint63.
From Stdlib Require Import Ascii.
From stdpp Require Import gmap strings pretty.

Import ListNotations.
Local Open Scope string_scope.
Local Open Scope list_scope.
Local Open Scope Z_scope.

(** ** Python arithmetic *)

Module Py.

(** [x < y] on floats, as a boolean. *)
Definition Qltb (x y : Q) : bool :=
  (Qnum x * QDen y <? Qnum y * QDen x)%Z.

(** [max(a, b)]: the first argument unless the second is strictly larger. *)
Definition max (a b : Q) : Q := if Qltb a b then b else a.

(** [min(a, b)]: the first argument unless the second is strictly smaller. *)
Definition min (a b : Q) : Q := if Qltb b a then b else a.

(** [int(x)] on a float: truncation towards zero. *)
Definition int (x : Q) : Z := Z.quot (Qnum x) (QDen x).

(** [range(start, stop, step)] for a positive [step], unrolled with fuel:
    at most [stop - start] elements are produced. *)
Fixpoint range_from (fuel : nat) (i stop step : Z) : list Z :=
  match fuel with
  | O => []
  | S fuel' =>
      if i <? stop then i :: range_from fuel' (i + step) stop step else []
  end.

Definition range (start stop step : Z) : list Z :=
  range_from (Z.to_nat (stop - start)) start stop step.

End Py.

(** ** Exceptions and the state-and-error monad *)

(** An exception is represented by its message, [str(e)]. *)
Definition exn : Type := string.

Definition M (S A : Type) : Type := S -> (exn + A) * S.

Definition ret {S A} (a : A) : M S A := fun s => (inr a, s).

Definition raise {S A} (e : exn) : M S A := fun s => (inl e, s).

Definition bind {S A B} (m : M S A) (k : A -> M S B) : M S B :=
  fun s =>
    match m s with
    | (inr a, s') => k a s'
    | (inl e, s') => (inl e, s')
    end.

(** [try: m except Exception as e: h e]. *)
Definition try_except {S A} (m : M S A) (h : exn -> M S A) : M S A :=
  fun s =>
    match m s with
    | (inr a, s') => (inr a, s')
    | (inl e, s') => h e s'
    end.

(** A call into an external library: the oracle says whether it raises. *)
Definition call {S A} (outcome : exn + A) : M S A :=
  fun s => (outcome, s).

Definition check {S} (failure : option exn) : M S unit :=
  fun s => match failure with Some e => (inl e, s) | None => (inr tt, s) end.

Declare Scope monad_scope.
Delimit Scope monad_scope with monad.
Notation "x <- m ;; k" := (bind m (fun x => k))
  (at level 100, m at next level, right associativity) : monad_scope.
Notation "m ;;; k" := (bind m (fun _ => k))
  (at level 100, right associativity) : monad_scope.

(** [for x in xs: acc = body x acc], stopping at the first exception. *)
Fixpoint for_each {S A} (xs : list Z) (body : Z -> A -> M S A) (acc : A)
  : M S A :=
  match xs with
  | [] => ret acc
  | x :: xs' => bind (body x acc) (for_each xs' body)
  end.

(** ** Clips *)

(** A subtitle segment [(start_time, end_time, text)]. *)
Definition segment : Type := Q * Q * string.

(** The visual transforms of [moviepy.video.fx] that [apply_filter] uses. *)
Inductive transform : Type :=
| blackwhite
| colorx (factor : Q)
| lum_contrast (contrast : Q)
| sepia
| vignette
| gaussian_blur (sigma : Z).

(** The attribute of [vfx] a transform is looked up under. *)
Definition vfx_name (t : transform) : string :=
  match t with
  | blackwhite => "blackwhite"
  | colorx _ => "colorx"
  | lum_contrast _ => "lum_contrast"
  | sepia => "sepia"
  | vignette => "vignette"
  | gaussian_blur _ => "gaussian_blur"
  end.

(** Evaluating [vfx.<name>].  [vfx] is the module [moviepy.video.fx.all] of
    moviepy 1.x, the releases that have [moviepy.editor]; it defines
    [blackwhite], [colorx] and [lum_contrast], and has no [sepia],
    [vignette] or [gaussian_blur]: looking one of these up raises
    [AttributeError]. *)
Definition vfx_lookup (t : transform) : option exn :=
  match t with
  | blackwhite | colorx _ | lum_contrast _ => None
  | sepia | vignette | gaussian_blur _ =>
      Some ("module 'moviepy.video.fx.all' has no attribute '"
            +:+ vfx_name t +:+ "'")
  end.

(** A [TextClip] after [set_position], [set_start] and [set_end]. *)
Record text_clip : Type := TextClip {
  tc_text : string;
  tc_fontsize : Z;
  tc_color : string;
  tc_bg_color : string;
  tc_font : string;
  tc_width : Z;
  tc_method : string;
  tc_position : string * string;
  tc_start : Q;
  tc_end : Q
}.

(** A video clip: its frame size, the rectangle of the source frame it
    shows ([view_x1 <= x < view_x2], [view_y1 <= y < view_y2]), the
    transforms applied to it and the captions composited over it. *)
Record clip : Type := Clip {
  clip_w : Z;
  clip_h : Z;
  view_x1 : Z;
  view_y1 : Z;
  view_x2 : Z;
  view_y2 : Z;
  clip_fx : list transform;
  clip_layers : list text_clip
}.

(** A clip as [VideoFileClip] opens it. *)
Definition source_clip (w h : Z) : clip :=
  Clip w h 0 0 w h [] [].

(** Bound of the slice [pic[a:b]] over an axis of length [n]. *)
Definition slice_bound (n i : Z) : Z :=
  if i <? 0 then Z.max 0 (i + n) else Z.min i n.

(** [clip.crop(x1, y1, x2, y2)] of moviepy 1.x.  It first fills in the
    bounds with [x1 = x1 or 0], [y1 = y1 or 0], [x2 = x2 or clip.size[0]]
    and [y2 = y2 or clip.size[1]], so an upper bound given as [0] means the
    far edge of the frame (the first two change nothing on integers); then
    every frame becomes [pic[y1:y2, x1:x2]]. *)
Definition crop (c : clip) (x1 y1 x2 y2 : Z) : clip :=
  let x2 := if x2 =? 0 then clip_w c else x2 in
  let y2 := if y2 =? 0 then clip_h c else y2 in
  let xa := slice_bound (clip_w c) x1 in
  let xb := Z.max xa (slice_bound (clip_w c) x2) in
  let ya := slice_bound (clip_h c) y1 in
  let yb := Z.max ya (slice_bound (clip_h c) y2) in
  Clip (xb - xa) (yb - ya)
       (view_x1 c + xa) (view_y1 c + ya) (view_x1 c + xb) (view_y1 c + yb)
       (clip_fx c) (clip_layers c).

(** [clip.fx(f, ...)]. *)
Definition fx (c : clip) (t : transform) : clip :=
  Clip (clip_w c) (clip_h c) (view_x1 c) (view_y1 c) (view_x2 c) (view_y2 c)
       (clip_fx c ++ [t]) (clip_layers c).

(** [CompositeVideoClip([clip] + subtitle_clips)]: the size of the first
    clip, the other clips on top. *)
Definition composite (c : clip) (layers : list text_clip) : clip :=
  Clip (clip_w c) (clip_h c) (view_x1 c) (view_y1 c) (view_x2 c) (view_y2 c)
       (clip_fx c) (clip_layers c ++ layers).

(** ** [save_clip]: vertical reframing (lines 67-81) *)

Definition target_aspect_ratio : Q := 9 # 16.

Definition reframe_vertical {S} (c : clip) : M S clip :=
  if clip_h c =? 0 then raise "division by zero"
  else
    let current_aspect_ratio := (inject_Z (clip_w c) / inject_Z (clip_h c))%Q in
    if Py.Qltb target_aspect_ratio current_aspect_ratio then
      let new_width := Py.int (inject_Z (clip_h c) * target_aspect_ratio)%Q in
      let crop_x1 := (clip_w c - new_width) / 2 in
      ret (crop c crop_x1 0 (crop_x1 + new_width) (clip_h c))
    else if Py.Qltb current_aspect_ratio target_aspect_ratio then
      let new_height := Py.int (inject_Z (clip_w c) / target_aspect_ratio)%Q in
      let crop_y1 := (clip_h c - new_height) / 2 in
      ret (crop c 0 crop_y1 (clip_w c) (crop_y1 + new_height))
    else ret c.

(** ** [save_clip]: subtitle selection and re-timing (lines 84-90) *)

(** The list comprehension of lines 86-90:
    [[(max(0, st - start_time), min(et - start_time, end_time - start_time), text)
      for st, et, text in subtitles if et > start_time and st < end_time]]. *)
Fixpoint clip_subtitles (subtitles : list segment) (start_time end_time : Q)
  : list segment :=
  match subtitles with
  | [] => []
  | (st, et, text) :: rest =>
      if Py.Qltb start_time et && Py.Qltb st end_time then
        (Py.max 0 (st - start_time)%Q,
         Py.min (et - start_time)%Q (end_time - start_time)%Q,
         text) :: clip_subtitles rest start_time end_time
      else clip_subtitles rest start_time end_time
  end.

(** ** The video library as a world *)

(** What [write_videofile] was asked to encode: the clip and the two
    codecs. *)
Record video_file : Type := VideoFile {
  vf_clip : clip;
  vf_codec : string;
  vf_audio_codec : string
}.

Record media_world : Type := MediaWorld {
  (** [VideoFileClip(path)]: the frame size, or the exception raised. *)
  video_file_clip : string -> exn + Z * Z;
  (** [.subclip(start, end)] of the clip opened at that path. *)
  subclip_fails : string -> Q -> Q -> option exn;
  (** [TextClip(text, ..., size=(width, None), ...)]. *)
  text_clip_fails : string -> Z -> option exn;
  (** [clip.fx(f, ...)] for a transform [f] that [vfx] has. *)
  fx_fails : transform -> option exn;
  (** [clip.write_videofile(path, codec, audio_codec)]. *)
  encode_fails : clip -> string -> string -> string -> option exn;
  (** [clip.close()]. *)
  close_fails : clip -> option exn
}.

Section Media.

Variable W : media_world.

Local Open Scope monad_scope.

(** [VideoFileClip(path)]: a clip showing the whole frame.  The state these
    computations thread maps each output path to the encoding last
    requested there. *)
Definition open_video (path : string) : M (gmap string video_file) clip :=
  wh <- call (video_file_clip W path) ;;
  ret (source_clip (fst wh) (snd wh)).

Definition subclip (path : string) (c : clip) (t_start t_end : Q)
  : M (gmap string video_file) clip :=
  check (subclip_fails W path t_start t_end) ;;; ret c.

(** [clip.write_videofile(path, codec=..., audio_codec=...)]: the request
    is recorded, whether the encoder then raises or returns.  What the
    encoder leaves on disk, in either case, is the library's business and
    is not represented. *)
Definition write_videofile (c : clip) (path codec audio_codec : string)
  : M (gmap string video_file) unit :=
  fun disk =>
    (match encode_fails W c path codec audio_codec with
     | Some e => inl e
     | None => inr tt
     end,
     <[path := VideoFile c codec audio_codec]> disk).

(** [clip.close()]. *)
Definition close (c : clip) : M (gmap string video_file) unit :=
  check (close_fails W c).

(** [clip.fx(vfx.<transform>, ...)]: the argument [vfx.<transform>] is
    evaluated first, then the transform is applied. *)
Definition apply_fx (c : clip) (t : transform)
  : M (gmap string video_file) clip :=
  check (vfx_lookup t) ;;; check (fx_fails W t) ;;; ret (fx c t).

(** Lines 93-105: one [TextClip] per re-timed subtitle. *)
Fixpoint subtitle_clips (c : clip) (subs : list segment)
  : M (gmap string video_file) (list text_clip) :=
  match subs with
  | [] => ret []
  | (st, et, text) :: rest =>
      check (text_clip_fails W text (clip_w c)) ;;;
      tail <- subtitle_clips c rest ;;
      ret (TextClip text 24 "white" "black" "Arial" (clip_w c) "caption"
                    ("center", "bottom") st et :: tail)
  end.

(** Lines 60-117. *)
Definition save_clip (video_path : string) (start_time end_time : Q)
    (output_path : string) (subtitles : list segment) (vertical : bool)
  : M (gmap string video_file) string :=
  try_except
    (clip <- open_video video_path ;;
     clip <- subclip video_path clip start_time end_time ;;
     clip <- (if vertical then reframe_vertical clip else ret clip) ;;
     clip <- (match subtitles with
              | [] => ret clip
              | _ :: _ =>
                  layers <- subtitle_clips clip
                              (clip_subtitles subtitles start_time end_time) ;;
                  ret (match layers with
                       | [] => clip
                       | _ :: _ => composite clip layers
                       end)
              end) ;;
     write_videofile clip output_path "libx264" "aac" ;;;
     close clip ;;;
     ret output_path)
    (fun e => raise ("Error saving clip: " +:+ e)).

(** ** [apply_filter] (lines 119-146) *)

Definition apply_filter (input_path output_path filter_name : string)
  : M (gmap string video_file) string :=
  try_except
    (clip <- open_video input_path ;;
     clip <- (if String.eqb filter_name "grayscale" then apply_fx clip blackwhite
              else if String.eqb filter_name "bright" then apply_fx clip (colorx 1.5)
              else if String.eqb filter_name "dark" then apply_fx clip (colorx 0.7)
              else if String.eqb filter_name "contrast"
                   then apply_fx clip (lum_contrast 1.5)
              else if String.eqb filter_name "sepia" then apply_fx clip sepia
              else if String.eqb filter_name "vignette" then apply_fx clip vignette
              else if String.eqb filter_name "blur"
                   then apply_fx clip (gaussian_blur 1)
              else ret clip) ;;
     write_videofile clip output_path "libx264" "aac" ;;;
     close clip ;;;
     ret output_path)
    (fun e => raise ("Error applying filter: " +:+ e)).

End Media.

(** ** [generate_subtitles] (lines 24-58) *)

(** The part of the operating system the function touches: the files of
    the working directory and the standard output. *)
Record os_state : Type := OsState {
  files : gset string;
  stdout : list string
}.

(** The speech and audio libraries.  Oracles about a chunk are indexed by
    the chunk's offset [i] in milliseconds. *)
Record speech_world : Type := SpeechWorld {
  (** [sr.Recognizer()]. *)
  recognizer_fails : option exn;
  (** [AudioSegment.from_wav(path)]: [len(audio)] in milliseconds. *)
  from_wav : string -> exn + Z;
  (** [chunk.export(chunk_file)]: the exception, and whether a partly
      written file is left behind. *)
  export_fails : Z -> option (exn * bool);
  (** [sr.AudioFile(chunk_file).__enter__()]. *)
  audio_file_fails : Z -> option exn;
  (** [recognizer.record(source)]. *)
  record_fails : Z -> option exn;
  (** [recognizer.recognize_google(audio_data)]. *)
  recognize_google : Z -> exn + string;
  (** [os.remove(chunk_file)] on an existing file. *)
  remove_fails : Z -> option exn
}.

(** Line 34: ten seconds, in milliseconds. *)
Definition chunk_duration : Z := 10000.

(** Line 38: [f"temp_chunk_{i}.wav"]. *)
Definition chunk_file (i : Z) : string := "temp_chunk_" +:+ pretty i +:+ ".wav".

(** Lines 45-46: [i / 1000] and
    [min((i + chunk_duration) / 1000, len(audio) / 1000)]. *)
Definition chunk_start_time (i : Z) : Q := (inject_Z i / 1000)%Q.

Definition chunk_end_time (len_audio i : Z) : Q :=
  Py.min (inject_Z (i + chunk_duration) / 1000)%Q (inject_Z len_audio / 1000)%Q.

Section Speech.

Variable W : speech_world.

Local Open Scope monad_scope.

(** Line 39: the slice [audio[i:i+chunk_duration]] is written to [name]. *)
Definition export (i : Z) (name : string) : M os_state unit :=
  fun s =>
    match export_fails W i with
    | Some (e, partial) =>
        (inl e, if partial then OsState ({[name]} ∪ files s) (stdout s) else s)
    | None => (inr tt, OsState ({[name]} ∪ files s) (stdout s))
    end.

(** Line 53: [os.remove(name)] raises when there is no such file. *)
Definition os_remove (i : Z) (name : string) : M os_state unit :=
  fun s =>
    if decide (name ∈ files s) then
      match remove_fails W i with
      | Some e => (inl e, s)
      | None => (inr tt, OsState (files s ∖ {[name]}) (stdout s))
      end
    else (inl ("No such file or directory: " +:+ name), s).

(** Line 57. *)
Definition print (line : string) : M os_state unit :=
  fun s => (inr tt, OsState (files s) (stdout s ++ [line])).

(** The body of the [for] loop, lines 37-53.  Only the recognition and the
    [append] are inside the inner [try]; its bare [except] passes. *)
Definition transcribe_chunk (len_audio : Z) (i : Z) (subtitles : list segment)
  : M os_state (list segment) :=
  export i (chunk_file i) ;;;
  check (audio_file_fails W i) ;;;
  check (record_fails W i) ;;;
  subtitles <- try_except
                 (text <- call (recognize_google W i) ;;
                  let start_time := chunk_start_time i in
                  let end_time := chunk_end_time len_audio i in
                  ret (subtitles ++ [(start_time, end_time, text)]))
                 (fun _ => ret subtitles) ;;
  os_remove i (chunk_file i) ;;;
  ret subtitles.

(** Lines 24-58: whatever the body raises, the handler prints it and
    returns the empty list. *)
Definition generate_subtitles (audio_path : string)
  : M os_state (list segment) :=
  try_except
    (check (recognizer_fails W) ;;;
     len_audio <- call (from_wav W audio_path) ;;
     for_each (Py.range 0 len_audio chunk_duration)
              (transcribe_chunk len_audio) [])
    (fun e => print ("Error generating subtitles: " +:+ e) ;;; ret []).

End Speech.

(** ** [download_youtube] (lines 7-22) *)

(** Python string operations used to build the file name and the path. *)
Module PyStr.

(** [s.replace(old, new)] for one-character [old] and [new]. *)
Fixpoint replace (old new : ascii) (s : string) : string :=
  match s with
  | EmptyString => EmptyString
  | String c s' =>
      String (if Ascii.eqb c old then new else c) (replace old new s')
  end.

(** [s[:n]] for [n >= 0]. *)
Fixpoint take (n : nat) (s : string) : string :=
  match n, s with
  | S n', String c s' => String c (take n' s')
  | _, _ => EmptyString
  end.

(** [s.startswith("/")]. *)
Definition starts_with_sep (s : string) : bool :=
  match s with
  | String c _ => Ascii.eqb c "/"%char
  | EmptyString => false
  end.

(** [s.endswith("/")]. *)
Fixpoint ends_with_sep (s : string) : bool :=
  match s with
  | EmptyString => false
  | String c EmptyString => Ascii.eqb c "/"%char
  | String _ s' => ends_with_sep s'
  end.

(** [os.path.join(a, b)] of [posixpath]: an absolute [b] replaces [a];
    otherwise [b] is appended, after a separator unless [a] is empty or
    already ends with one. *)
Definition path_join (a b : string) : string :=
  if starts_with_sep b then b
  else if String.eqb a "" || ends_with_sep a then a +:+ b
  else a +:+ "/" +:+ b.

End PyStr.

(** What [video_stream.download(output_path=..., filename=...)] was asked
    to fetch. *)
Record download_request : Type := Download {
  dl_url : string;
  dl_stream : Z;
  dl_output_path : string;
  dl_filename : string
}.

Record tube_world : Type := TubeWorld {
  (** [pytube.YouTube(url)]. *)
  youtube_fails : string -> option exn;
  (** [yt.streams.filter(progressive=True, file_extension='mp4')
      .order_by('resolution').desc().first()]: the stream's tag, or [None]
      when no stream matches. *)
  first_progressive_mp4 : string -> exn + option Z;
  (** [yt.title]. *)
  video_title : string -> exn + string;
  (** [video_stream.download(output_path, filename)]. *)
  download_fails : string -> Z -> string -> string -> option exn
}.

(** Line 15: [f"{session_id}_{yt.title.replace(' ', '_')[:30]}.mp4"]. *)
Definition download_filename (session_id title : string) : string :=
  session_id +:+ "_" +:+ PyStr.take 30 (PyStr.replace " "%char "_"%char title) +:+ ".mp4".

Section Tube.

Variable W : tube_world.

Local Open Scope monad_scope.

(** Line 19.  The state is the list of downloads performed so far. *)
Definition stream_download (url : string) (video_stream : option Z)
    (output_path filename : string) : M (list download_request) unit :=
  fun done =>
    match video_stream with
    | None => (inl "'NoneType' object has no attribute 'download'", done)
    | Some itag =>
        match download_fails W url itag output_path filename with
        | Some e => (inl e, done)
        | None => (inr tt, done ++ [Download url itag output_path filename])
        end
    end.

Definition download_youtube (url upload_folder session_id : string)
  : M (list download_request) string :=
  try_except
    (check (youtube_fails W url) ;;;
     video_stream <- call (first_progressive_mp4 W url) ;;
     title <- call (video_title W url) ;;
     let filename := download_filename session_id title in
     let file_path := PyStr.path_join upload_folder filename in
     stream_download url video_stream upload_folder filename ;;;
     ret file_path)
    (fun e => raise ("Failed to download YouTube video: " +:+ e)).

End Tube.

(** ** Specification vocabulary and concrete worlds *)

(** The reframing of a freshly opened clip, in integer arithmetic.  When
    the right bound handed to [crop] is [0], which happens for the 1 by 1
    frame only, the frame is kept. *)
Definition reframed (w h : Z) : clip :=
  if 9 * h <? 16 * w then
    let new_width := 9 * h / 16 in
    let crop_x1 := (w - new_width) / 2 in
    if crop_x1 + new_width =? 0 then source_clip w h
    else Clip new_width h crop_x1 0 (crop_x1 + new_width) h [] []
  else if 16 * w <? 9 * h then
    let new_height := 16 * w / 9 in
    let crop_y1 := (h - new_height) / 2 in
    Clip w new_height 0 crop_y1 w (crop_y1 + new_height) [] []
  else source_clip w h.

(** The frame geometry of a clip. *)
Definition geometry (c : clip) : Z * Z * (Z * Z * Z * Z) :=
  (clip_w c, clip_h c, (view_x1 c, view_y1 c, view_x2 c, view_y2 c)).

(** The subtitle a caption shows and when. *)
Definition caption_segment (t : text_clip) : segment :=
  (tc_start t, tc_end t, tc_text t).

(** The segments of [subtitles] that overlap the clip, in order. *)
Definition selected (start_time end_time : Q) (subtitles : list segment)
  : list segment :=
  List.filter (fun s => Py.Qltb start_time (snd (fst s))
                   && Py.Qltb (fst (fst s)) end_time) subtitles.

(** A segment in clip-relative time. *)
Definition retime (start_time end_time : Q) (s : segment) : segment :=
  (Py.max 0 (fst (fst s) - start_time)%Q,
   Py.min (snd (fst s) - start_time)%Q (end_time - start_time)%Q,
   snd s).

(** A caption's time range is well formed for a clip of the given length:
    it is not inverted and lies within the clip. *)
Definition caption_range_ok (duration rel_start rel_end : Q) : Prop :=
  (0 <= rel_start)%Q /\ (rel_start <= rel_end)%Q /\ (rel_end <= duration)%Q.

(** No library call of window [i] other than the recognition raises. *)
Definition chunk_ok (W : speech_world) (i : Z) : bool :=
  match export_fails W i, audio_file_fails W i, record_fails W i, remove_fails W i with
  | None, None, None, None => true
  | _, _, _, _ => false
  end.

(** The segment window [i] contributes: none when recognition fails. *)
Definition recognized (W : speech_world) (len_audio i : Z) : list segment :=
  match recognize_google W i with
  | inr text => [(chunk_start_time i, chunk_end_time len_audio i, text)]
  | inl _ => []
  end.

(** Nothing but recognition fails during the whole call. *)
Definition healthy (W : speech_world) (audio_path : string) : bool :=
  match recognizer_fails W, from_wav W audio_path with
  | None, inr len_audio =>
      forallb (chunk_ok W) (Py.range 0 len_audio chunk_duration)
  | _, _ => false
  end.

(** The time windows of an audio of [len_audio] milliseconds. *)
Definition windows (len_audio : Z) : list (Q * Q) :=
  map (fun i => (chunk_start_time i, chunk_end_time len_audio i))
      (Py.range 0 len_audio chunk_duration).

(** The list [generate_subtitles] returns, as a function of the world. *)
Definition transcript (W : speech_world) (audio_path : string) : list segment :=
  match from_wav W audio_path with
  | inr len_audio =>
      if healthy W audio_path
      then flat_map (recognized W len_audio)
                    (Py.range 0 len_audio chunk_duration)
      else []
  | inl _ => []
  end.

(** A segment starts before another. *)
Definition starts_before (a b : segment) : Prop :=
  (fst (fst a) < fst (fst b))%Q.

(** A computation that leaves the state alone, whether it raises or not. *)
Definition pure_state {S A} (m : M S A) : Prop :=
  forall s r s', m s = (r, s') -> s' = s.

(** What the encoder and [close] make of a clip whose encoding was
    requested at [path]: the first error, wrapped as [wrap] says, or
    [path]. *)
Definition encoded (W : media_world) (c : clip) (path : string)
    (wrap : exn -> exn) : exn + string :=
  match encode_fails W c path "libx264" "aac", close_fails W c with
  | Some e, _ => inl (wrap e)
  | None, Some e => inl (wrap e)
  | None, None => inr path
  end.

(** A computation that either raises before asking for any encoding, or
    asks for exactly one, at [path] with [libx264] and [aac], and then
    returns [path] or raises as the encoder and [close] decide. *)
Definition writes_h264_aac (W : media_world) (path : string)
    (wrap : exn -> exn) (m : M (gmap string video_file) string) : Prop :=
  forall disk r disk',
    m disk = (r, disk') ->
    (exists e, r = inl (wrap e) /\ disk' = disk) \/
    (exists c, r = encoded W c path wrap /\
               disk' = <[path := VideoFile c "libx264" "aac"]> disk).

(** A source that opens, but whose [close] raises. *)
Definition stuck_close_media : media_world :=
  MediaWorld (fun _ => inr (1920, 1080))
             (fun _ _ _ => None) (fun _ _ => None) (fun _ => None)
             (fun _ _ _ _ => None) (fun _ => Some "reader already closed").

(** The filter names whose transform [vfx] does not have. *)
Definition missing_filters : list string := ["sepia"; "vignette"; "blur"].

(** The enumerated filter names with their transforms and parameters. *)
Definition filter_table : list (string * transform) :=
  [ ("grayscale", blackwhite);
    ("bright", colorx 1.5);
    ("dark", colorx 0.7);
    ("contrast", lum_contrast 1.5);
    ("sepia", sepia);
    ("vignette", vignette);
    ("blur", gaussian_blur 1) ].

(** The rectangle of the source frame a clip shows. *)
Definition view_box (c : clip) : Z * Z * Z * Z :=
  (view_x1 c, view_y1 c, view_x2 c, view_y2 c).

(** The arithmetic of lines 69-81 and 87 on binary64 floats. *)
Module Binary64.

(** [float(z)], exact for [0 <= z < 2^53]. *)
Definition of_int (z : Z) : PrimFloat.float :=
  PrimFloat.of_uint63 (Uint63.of_Z z).

(** [int(x)]: truncation towards zero of a finite float. *)
Definition int (x : PrimFloat.float) : Z :=
  match FloatOps.Prim2SF x with
  | SpecFloat.S754_finite negative m e =>
      let magnitude := if 0 <=? e then Z.pos m * 2 ^ e else Z.pos m / 2 ^ (- e) in
      if negative then - magnitude else magnitude
  | _ => 0
  end.

Definition target_aspect_ratio : PrimFloat.float :=
  PrimFloat.div (of_int 9) (of_int 16).

(** The rectangle kept by the reframing of a [w] by [h] frame. *)
Definition crop_box (w h : Z) : Z * Z * Z * Z :=
  let current_aspect_ratio := PrimFloat.div (of_int w) (of_int h) in
  if PrimFloat.ltb target_aspect_ratio current_aspect_ratio then
    let new_width := int (PrimFloat.mul (of_int h) target_aspect_ratio) in
    let crop_x1 := (w - new_width) / 2 in
    let crop_x2 := crop_x1 + new_width in
    (crop_x1, 0, if crop_x2 =? 0 then w else crop_x2, h)
  else if PrimFloat.ltb current_aspect_ratio target_aspect_ratio then
    let new_height := int (PrimFloat.div (of_int w) target_aspect_ratio) in
    let crop_y1 := (h - new_height) / 2 in
    (0, crop_y1, w, crop_y1 + new_height)
  else (0, 0, w, h).

(** [max(0, st - start_time)] and
    [min(et - start_time, end_time - start_time)]. *)
Definition rel_start (st start_time : PrimFloat.float) : PrimFloat.float :=
  let d := PrimFloat.sub st start_time in
  if PrimFloat.ltb (of_int 0) d then d else of_int 0.

Definition rel_end (et start_time end_time : PrimFloat.float) : PrimFloat.float :=
  let a := PrimFloat.sub et start_time in
  let b := PrimFloat.sub end_time start_time in
  if PrimFloat.ltb b a then b else a.

(** The list comprehension of lines 86-90. *)
Fixpoint clip_subtitles
    (subtitles : list (PrimFloat.float * PrimFloat.float * string))
    (start_time end_time : PrimFloat.float)
  : list (PrimFloat.float * PrimFloat.float * string) :=
  match subtitles with
  | [] => []
  | (st, et, text) :: rest =>
      if PrimFloat.ltb start_time et && PrimFloat.ltb st end_time then
        (rel_start st start_time, rel_end et start_time end_time, text)
        :: clip_subtitles rest start_time end_time
      else clip_subtitles rest start_time end_time
  end.

(** A clip range that ends one unit in the last place after 10 seconds:
    from [2 - 3 * 2^-50] to [10 + 2^-49]; both numbers are binary64
    floats. *)
Definition tight_clip_start : PrimFloat.float :=
  PrimFloat.sub (of_int 2) (PrimFloat.div (of_int 3) (of_int (2 ^ 50))).

Definition tight_clip_end : PrimFloat.float :=
  PrimFloat.add (of_int 10) (PrimFloat.div (of_int 1) (of_int (2 ^ 49))).

End Binary64.

(** Frame sizes on which the two arithmetics are compared: every size up
    to 128 by 128 and the usual video formats. *)
Definition sample_sizes : list (Z * Z) :=
  list_prod (map Z.of_nat (seq 1 128)) (map Z.of_nat (seq 1 128))
  ++ [(1920, 1080); (1080, 1920); (1280, 720); (720, 1280); (3840, 2160);
      (2160, 3840); (4096, 2160); (7680, 4320); (640, 480); (1440, 1080);
      (607, 1080); (608, 1080); (1080, 1080); (2560, 1080)].

Definition box_eqb (a b : Z * Z * Z * Z) : bool :=
  let '(a1, a2, a3, a4) := a in
  let '(b1, b2, b3, b4) := b in
  (a1 =? b1) && (a2 =? b2) && (a3 =? b3) && (a4 =? b4).

(** A 1920x1080 source, every library call succeeding. *)
Definition demo_media : media_world :=
  MediaWorld (fun _ => inr (1920, 1080))
             (fun _ _ _ => None) (fun _ _ => None) (fun _ => None)
             (fun _ _ _ _ => None) (fun _ => None).

(** A source of a single pixel, every library call succeeding. *)
Definition tiny_media : media_world :=
  MediaWorld (fun _ => inr (1, 1))
             (fun _ _ _ => None) (fun _ _ => None) (fun _ => None)
             (fun _ _ _ _ => None) (fun _ => None).

(** Three segments: before, across the start of, and across the end of the clip
    range [(8, 20)] used below. *)
Definition demo_subtitles : list segment :=
  [(0, 3, "x"); (5, 12, "hi"); (15, 30, "bye")]%Q.

(** A 25-second audio whose second window is not recognised. *)
Definition demo_speech : speech_world :=
  SpeechWorld None (fun _ => inr 25000)
              (fun _ => None) (fun _ => None) (fun _ => None)
              (fun i => if i =? 10000 then inl "UnknownValueError"
                        else inr "hello")
              (fun _ => None).


(** The same audio, but reading back the first chunk file raises. *)
Definition unreadable_chunk_speech : speech_world :=
  SpeechWorld None (fun _ => inr 25000)
              (fun _ => None) (fun _ => None)
              (fun i => if i =? 0 then Some "record failed" else None)
              (fun _ => inr "hello")
              (fun _ => None).

(** An empty working directory and nothing printed yet. *)
Definition empty_os : os_state := OsState ∅ [].

(** A segment ends no later than another starts. *)
Definition ends_before (a b : segment) : Prop :=
  (snd (fst a) <= fst (fst b))%Q.

(** A segment produced for an audio of [len_audio] milliseconds is well
    formed: it starts at or after zero, is not empty, lasts at most ten
    seconds and ends within the audio. *)
Definition segment_ok (len_audio : Z) (seg : segment) : Prop :=
  (0 <= fst (fst seg))%Q /\
  (fst (fst seg) < snd (fst seg))%Q /\
  (snd (fst seg) - fst (fst seg) <= 10)%Q /\
  (snd (fst seg) <= inject_Z len_audio / 1000)%Q.

(** A working directory that already holds a file named like the first
    chunk file, and an unrelated file. *)
Definition cluttered_os : os_state :=
  OsState {[ "temp_chunk_0.wav"; "notes.txt" ]} [].

(** The frame size the reframing leaves, in integer arithmetic. *)
Definition reframed_size (w h : Z) : Z * Z :=
  if 9 * h <? 16 * w then
    if (w - 9 * h / 16) / 2 + 9 * h / 16 =? 0 then (w, h) else (9 * h / 16, h)
  else if 16 * w <? 9 * h then (w, 16 * w / 9)
  else (w, h).

(** The caption lines 95-104 build for a re-timed subtitle, on a clip of
    the given width. *)
Definition caption_of (width : Z) (seg : segment) : text_clip :=
  TextClip (snd seg) 24 "white" "black" "Arial" width "caption"
           ("center", "bottom") (fst (fst seg)) (snd (fst seg)).

(** A video with a progressive stream tagged 22, every call succeeding. *)
Definition demo_tube : tube_world :=
  TubeWorld (fun _ => None) (fun _ => inr (Some 22))
            (fun _ => inr "My first video about cats and dogs")
            (fun _ _ _ _ => None).

(** The same video without any progressive mp4 stream. *)
Definition no_stream_tube : tube_world :=
  TubeWorld (fun _ => None) (fun _ => inr None)
            (fun _ => inr "My first video about cats and dogs")
            (fun _ _ _ _ => None).

(** * Properties *)

(** ** Python arithmetic against the mathematical operations *)

Lemma Qltb_lt (x y : Q) : Py.Qltb x y = true <-> (x < y)%Q.
Proof. unfold Py.Qltb, Qlt. apply Z.ltb_lt. Qed.

Lemma Qltb_ge (x y : Q) : Py.Qltb x y = false <-> (y <= x)%Q.
Proof. unfold Py.Qltb, Qle. apply Z.ltb_ge. Qed.

Lemma py_max_Qmax (a b : Q) : (Py.max a b == Qmax a b)%Q.
Proof.
  unfold Py.max. destruct (Py.Qltb a b) eqn:E.
  - apply Qltb_lt in E. symmetry. apply Q.max_r. now apply Qlt_le_weak.
  - apply Qltb_ge in E. symmetry. now apply Q.max_l.
Qed.

Lemma py_min_Qmin (a b : Q) : (Py.min a b == Qmin a b)%Q.
Proof.
  unfold Py.min. destruct (Py.Qltb b a) eqn:E.
  - apply Qltb_lt in E. symmetry. apply Q.min_r. now apply Qlt_le_weak.
  - apply Qltb_ge in E. symmetry. now apply Q.min_l.
Qed.

(** On a non-negative float, [int] is the floor. *)
Lemma py_int_floor (x : Q) : (0 <= x)%Q -> Py.int x = Qfloor x.
Proof.
  destruct x as [n d]. unfold Qle, Py.int, Qfloor. simpl. intros H.
  apply Z.quot_div_nonneg; lia.
Qed.

(** [range(0, stop, step)] lists the multiples of [step] below [stop]. *)
Lemma range_from_multiples (step : Z) (Hstep : 0 < step) (stop : Z) :
  forall (fuel : nat) (k : Z),
    0 <= k -> stop - k * step <= Z.of_nat fuel ->
    Py.range_from fuel (k * step) stop step =
    map (fun j => (k + Z.of_nat j) * step)
        (seq 0 (Z.to_nat ((stop - k * step + step - 1) / step))).
Proof.
  induction fuel as [|fuel IH]; intros k Hk Hfuel.
  - simpl. replace (Z.to_nat _) with 0%nat; [reflexivity|].
    assert ((stop - k * step + step - 1) / step <= 0).
    { apply Z.lt_succ_r. apply Z.div_lt_upper_bound; lia. }
    lia.
  - simpl. destruct (k * step <? stop) eqn:E.
    + apply Z.ltb_lt in E.
      replace (k * step + step) with ((k + 1) * step) by ring.
      rewrite IH by lia.
      replace (stop - k * step + step - 1)
        with ((stop - (k + 1) * step + step - 1) + 1 * step) by ring.
      rewrite Z.div_add by lia.
      assert (0 <= (stop - (k + 1) * step + step - 1) / step)
        by (apply Z.div_pos; lia).
      rewrite Z2Nat.inj_add by lia.
      rewrite Nat.add_comm. simpl.
      f_equal; [f_equal; lia|].
      rewrite <- seq_shift, map_map.
      apply map_ext. intros j. f_equal. lia.
    + apply Z.ltb_ge in E.
      replace (Z.to_nat _) with 0%nat; [reflexivity|].
      assert ((stop - k * step + step - 1) / step <= 0).
      { apply Z.lt_succ_r. apply Z.div_lt_upper_bound; lia. }
      lia.
Qed.

Lemma range_multiples (stop step : Z) :
  0 < step ->
  Py.range 0 stop step =
  map (fun j => Z.of_nat j * step)
      (seq 0 (Z.to_nat ((stop + step - 1) / step))).
Proof.
  intros Hstep. unfold Py.range.
  change 0 with (0 * step) at 2.
  rewrite (range_from_multiples step Hstep) by lia.
  rewrite Z.mul_0_l, Z.sub_0_r. reflexivity.
Qed.

(** ** Vertical reframing *)

Lemma aspect_wide (w h : Z) :
  0 < h ->
  Py.Qltb target_aspect_ratio (inject_Z w / inject_Z h) = (9 * h <? 16 * w).
Proof.
  intros Hh. destruct h as [|p|p]; try lia.
  unfold Py.Qltb, target_aspect_ratio, Qdiv, Qmult, Qinv, inject_Z. simpl.
  apply eq_true_iff_eq. rewrite !Z.ltb_lt. lia.
Qed.

Lemma aspect_tall (w h : Z) :
  0 < h ->
  Py.Qltb (inject_Z w / inject_Z h) target_aspect_ratio = (16 * w <? 9 * h).
Proof.
  intros Hh. destruct h as [|p|p]; try lia.
  unfold Py.Qltb, target_aspect_ratio, Qdiv, Qmult, Qinv, inject_Z. simpl.
  apply eq_true_iff_eq. rewrite !Z.ltb_lt. lia.
Qed.

Lemma new_width_value (h : Z) :
  0 <= h -> Py.int (inject_Z h * target_aspect_ratio) = 9 * h / 16.
Proof.
  intros Hh. unfold Py.int, target_aspect_ratio, Qmult, inject_Z. simpl.
  rewrite Z.quot_div_nonneg by lia. f_equal. lia.
Qed.

Lemma new_height_value (w : Z) :
  0 <= w -> Py.int (inject_Z w / target_aspect_ratio) = 16 * w / 9.
Proof.
  intros Hw. unfold Py.int, target_aspect_ratio, Qdiv, Qmult, Qinv, inject_Z.
  simpl. rewrite Z.quot_div_nonneg by lia. f_equal. lia.
Qed.

Lemma slice_bound_inside (n i : Z) : 0 <= i <= n -> slice_bound n i = i.
Proof.
  intros H. unfold slice_bound.
  destruct (i <? 0) eqn:E; [apply Z.ltb_lt in E|]; lia.
Qed.

(** A crop whose rectangle lies inside the frame has the rectangle's size. *)
Lemma crop_inside (c : clip) (x1 y1 x2 y2 : Z) :
  0 <= x1 <= x2 -> 0 < x2 <= clip_w c -> 0 <= y1 <= y2 -> 0 < y2 <= clip_h c ->
  crop c x1 y1 x2 y2 =
  Clip (x2 - x1) (y2 - y1)
       (view_x1 c + x1) (view_y1 c + y1) (view_x1 c + x2) (view_y1 c + y2)
       (clip_fx c) (clip_layers c).
Proof.
  intros Hx Hx2 Hy Hy2. unfold crop.
  destruct (x2 =? 0) eqn:Ex; [apply Z.eqb_eq in Ex; lia|].
  destruct (y2 =? 0) eqn:Ey; [apply Z.eqb_eq in Ey; lia|].
  rewrite !slice_bound_inside by lia.
  rewrite !Z.max_r by lia. reflexivity.
Qed.

(** A right bound of zero stands for the right edge of the frame. *)
Lemma crop_zero_right (c : clip) (y2 : Z) :
  0 <= clip_w c -> 0 < y2 <= clip_h c ->
  crop c 0 0 0 y2 =
  Clip (clip_w c) y2
       (view_x1 c + 0) (view_y1 c + 0) (view_x1 c + clip_w c) (view_y1 c + y2)
       (clip_fx c) (clip_layers c).
Proof.
  intros Hw Hy. unfold crop. cbn [Z.eqb].
  destruct (y2 =? 0) eqn:Ey; [apply Z.eqb_eq in Ey; lia|].
  rewrite !slice_bound_inside by lia.
  rewrite !Z.max_r by lia. f_equal; lia.
Qed.

Lemma reframe_vertical_source {S} (w h : Z) (s : S) :
  0 < w -> 0 < h ->
  reframe_vertical (source_clip w h) s = (inr (reframed w h), s).
Proof.
  intros Hw Hh. unfold reframe_vertical, reframed. cbn [source_clip clip_w clip_h].
  destruct (h =? 0) eqn:E0; [apply Z.eqb_eq in E0; lia|].
  rewrite aspect_wide, aspect_tall by assumption.
  destruct (9 * h <? 16 * w) eqn:Ewide.
  - apply Z.ltb_lt in Ewide. rewrite new_width_value by lia.
    assert (0 <= 9 * h / 16) by (apply Z.div_pos; lia).
    assert (9 * h / 16 < w) by (apply Z.div_lt_upper_bound; lia).
    assert (0 <= (w - 9 * h / 16) / 2) by (apply Z.div_pos; lia).
    assert (2 * ((w - 9 * h / 16) / 2) <= w - 9 * h / 16)
      by (apply Z.mul_div_le; lia).
    unfold ret.
    destruct ((w - 9 * h / 16) / 2 + 9 * h / 16 =? 0) eqn:Ezero.
    + apply Z.eqb_eq in Ezero.
      assert (E1 : (w - 9 * h / 16) / 2 = 0) by lia.
      rewrite Ezero, E1. rewrite crop_zero_right by (cbn; lia).
      cbn. unfold source_clip. do 2 f_equal.
    + apply Z.eqb_neq in Ezero.
      rewrite crop_inside by (cbn; lia). cbn.
      do 2 f_equal. f_equal; lia.
  - destruct (16 * w <? 9 * h) eqn:Etall; [|reflexivity].
    apply Z.ltb_lt in Etall. rewrite new_height_value by lia.
    assert (1 <= 16 * w / 9) by (apply Z.div_le_lower_bound; lia).
    assert (16 * w / 9 < h) by (apply Z.div_lt_upper_bound; lia).
    assert (0 <= (h - 16 * w / 9) / 2) by (apply Z.div_pos; lia).
    assert (2 * ((h - 16 * w / 9) / 2) <= h - 16 * w / 9)
      by (apply Z.mul_div_le; lia).
    unfold ret. rewrite crop_inside by (cbn; lia). cbn.
    do 2 f_equal. f_equal; lia.
Qed.

(** ** Inversion of monadic runs *)

Lemma bind_inr {S A B} (m : M S A) (k : A -> M S B) (s s' : S) (b : B) :
  bind m k s = (inr b, s') ->
  exists a s1, m s = (inr a, s1) /\ k a s1 = (inr b, s').
Proof.
  unfold bind. destruct (m s) as [[e|a] s1]; [discriminate|]. eauto.
Qed.

Lemma try_except_raise_inr {S A} (m : M S A) (h : exn -> exn) (s s' : S) (a : A) :
  try_except m (fun e => raise (h e)) s = (inr a, s') -> m s = (inr a, s').
Proof.
  unfold try_except, raise. destruct (m s) as [[e|a'] s1]; [discriminate|auto].
Qed.

Lemma check_inr {S} (failure : option exn) (s s' : S) (u : unit) :
  check failure s = (inr u, s') -> failure = None /\ s' = s.
Proof.
  unfold check. destruct failure; [discriminate|]. intros [= _ ->]. auto.
Qed.

Lemma ret_inr {S A} (a b : A) (s s' : S) :
  ret a s = (inr b, s') -> b = a /\ s' = s.
Proof. unfold ret. intros [= -> ->]. auto. Qed.

Ltac monad_inv H :=
  repeat match type of H with
    | bind _ _ _ = (inr _, _) =>
        let a := fresh "a" in
        let s := fresh "s" in
        let H1 := fresh "Hrun" in
        apply bind_inr in H; destruct H as (a & s & H1 & H)
    end.

Lemma reframe_vertical_frame {S} (c c' : clip) (s s' : S) :
  reframe_vertical c s = (inr c', s') ->
  s' = s /\ clip_fx c' = clip_fx c /\ clip_layers c' = clip_layers c.
Proof.
  unfold reframe_vertical.
  repeat match goal with |- context [if ?b then _ else _] => destruct b end;
    unfold raise, ret; intros [= <- <-]; auto.
Qed.

Lemma subtitle_clips_segments (W : media_world) (c : clip) :
  forall (subs : list segment) (layers : list text_clip)
         (s s' : gmap string video_file),
    subtitle_clips W c subs s = (inr layers, s') ->
    s' = s /\ map caption_segment layers = subs /\
    Forall (fun t => tc_width t = clip_w c) layers.
Proof.
  induction subs as [|[[st et] text] rest IH]; intros layers s s' H.
  - apply ret_inr in H as [-> ->]. auto.
  - cbn [subtitle_clips] in H. monad_inv H.
    apply check_inr in Hrun as [_ ->].
    apply IH in Hrun0 as (-> & Hseg & Hw).
    apply ret_inr in H as [-> ->].
    repeat split; [cbn; now rewrite Hseg | constructor; auto].
Qed.

Lemma open_video_inr (W : media_world) (path : string) (c : clip)
    (s s' : gmap string video_file) :
  open_video W path s = (inr c, s') ->
  exists w h, video_file_clip W path = inr (w, h) /\
              c = source_clip w h /\ s' = s.
Proof.
  unfold open_video, bind, call, ret.
  destruct (video_file_clip W path) as [e|[w h]]; [discriminate|].
  intros [= <- <-]. eauto.
Qed.

Lemma subclip_inr (W : media_world) (path : string) (c c' : clip)
    (t_start t_end : Q) (s s' : gmap string video_file) :
  subclip W path c t_start t_end s = (inr c', s') -> c' = c /\ s' = s.
Proof.
  unfold subclip, bind, check, ret.
  destruct (subclip_fails W path t_start t_end); [discriminate|].
  intros [= <- <-]. auto.
Qed.

Lemma write_videofile_inr (W : media_world) (c : clip)
    (path codec audio_codec : string) (u : unit)
    (s s' : gmap string video_file) :
  write_videofile W c path codec audio_codec s = (inr u, s') ->
  s' = <[path := VideoFile c codec audio_codec]> s.
Proof.
  unfold write_videofile.
  destruct (encode_fails W c path codec audio_codec); [discriminate|].
  intros [= Hs]. now symmetry.
Qed.

(** What a successful [save_clip] did. *)
Lemma save_clip_success (W : media_world) (video_path : string)
    (start_time end_time : Q) (output_path : string)
    (subtitles : list segment) (vertical : bool)
    (disk disk' : gmap string video_file) (p : string) :
  save_clip W video_path start_time end_time output_path subtitles vertical disk
  = (inr p, disk') ->
  exists (w h : Z) (base final : clip),
    video_file_clip W video_path = inr (w, h) /\
    (if vertical
     then reframe_vertical (source_clip w h) disk = (inr base, disk)
     else base = source_clip w h) /\
    geometry final = geometry base /\
    clip_fx final = [] /\
    map caption_segment (clip_layers final)
    = clip_subtitles subtitles start_time end_time /\
    Forall (fun t => tc_width t = clip_w base) (clip_layers final) /\
    p = output_path /\
    disk' = <[output_path := VideoFile final "libx264" "aac"]> disk.
Proof.
  intros H. unfold save_clip in H. apply try_except_raise_inr in H.
  apply bind_inr in H as (c0 & s0 & Hopen & H).
  apply bind_inr in H as (c1 & s1 & Hsub & H).
  apply bind_inr in H as (base & s2 & Hvert & H).
  apply bind_inr in H as (final & s3 & Hcap & H).
  apply bind_inr in H as (u & s4 & Hwrite & H).
  apply bind_inr in H as (u' & s6 & Hclose & H).
  apply open_video_inr in Hopen as (w & h & Hopen & -> & ->).
  apply subclip_inr in Hsub as [-> ->].
  apply ret_inr in H as [-> ->].
  apply check_inr in Hclose as [_ ->].
  apply write_videofile_inr in Hwrite as ->.
  exists w, h, base, final.
  assert (Hbase : s2 = disk /\ clip_fx base = [] /\ clip_layers base = [] /\
                  if vertical
                  then reframe_vertical (source_clip w h) disk = (inr base, disk)
                  else base = source_clip w h).
  { destruct vertical.
    - pose proof (reframe_vertical_frame _ _ _ _ Hvert) as (-> & Hfx & Hl).
      auto.
    - apply ret_inr in Hvert as [-> ->]. auto. }
  destruct Hbase as (-> & Hfx & Hlayers & Hbase).
  assert (Hfinal : s3 = disk /\ geometry final = geometry base /\
                   clip_fx final = [] /\
                   map caption_segment (clip_layers final)
                   = clip_subtitles subtitles start_time end_time /\
                   Forall (fun t => tc_width t = clip_w base)
                          (clip_layers final)).
  { destruct subtitles as [|seg rest].
    - apply ret_inr in Hcap as [-> ->]. rewrite Hlayers. cbn. auto.
    - apply bind_inr in Hcap as (layers & s5 & Hlay & Hcap).
      apply subtitle_clips_segments in Hlay as (-> & Hseg & Hw).
      apply ret_inr in Hcap as [-> ->].
      destruct layers as [|t layers].
      + rewrite Hlayers. rewrite <- Hseg. cbn. auto.
      + unfold composite. cbn [clip_layers clip_fx geometry clip_w clip_h
                                view_x1 view_x2 view_y1 view_y2].
        rewrite Hlayers. cbn [app]. auto. }
  destruct Hfinal as (-> & Hgeo & Hfx' & Hseg & Hw).
  repeat split; auto.
Qed.

Lemma aspect_wide_iff (w h : Z) :
  0 < h -> (target_aspect_ratio < inject_Z w / inject_Z h)%Q <-> 9 * h < 16 * w.
Proof.
  intros Hh. rewrite <- Qltb_lt, aspect_wide by assumption. apply Z.ltb_lt.
Qed.

Lemma aspect_tall_iff (w h : Z) :
  0 < h -> (inject_Z w / inject_Z h < target_aspect_ratio)%Q <-> 16 * w < 9 * h.
Proof.
  intros Hh. rewrite <- Qltb_lt, aspect_tall by assumption. apply Z.ltb_lt.
Qed.

Lemma aspect_exact_iff (w h : Z) :
  0 < h -> (inject_Z w / inject_Z h == target_aspect_ratio)%Q <-> 16 * w = 9 * h.
Proof.
  intros Hh. split.
  - intros E.
    assert (H1 : ~ 9 * h < 16 * w).
    { rewrite <- aspect_wide_iff by assumption. rewrite E. apply Qlt_irrefl. }
    assert (H2 : ~ 16 * w < 9 * h).
    { rewrite <- aspect_tall_iff by assumption. rewrite E. apply Qlt_irrefl. }
    lia.
  - intros E. apply Qle_antisym; apply Qnot_lt_le.
    + rewrite aspect_wide_iff by assumption. lia.
    + rewrite aspect_tall_iff by assumption. lia.
Qed.

Lemma floor_nine_sixteenths (h : Z) :
  Qfloor (inject_Z h * (9 # 16)) = 9 * h / 16.
Proof. unfold Qfloor, Qmult, inject_Z. simpl. f_equal. lia. Qed.

Lemma floor_sixteen_ninths (w : Z) :
  Qfloor (inject_Z w * (16 # 9)) = 16 * w / 9.
Proof. unfold Qfloor, Qmult, inject_Z. simpl. f_equal. lia. Qed.

(** The cases of the reframing, with the bounds that make the crop
    rectangle lie inside the frame.  The 1 by 1 frame is wider than 9:16 and
    is kept whole. *)
Lemma reframed_cases (w h : Z) :
  0 < w -> 0 < h ->
  (9 * h < 16 * w /\ ~ (w = 1 /\ h = 1) /\
   geometry (reframed w h) =
   (9 * h / 16, h,
    ((w - 9 * h / 16) / 2, 0, (w - 9 * h / 16) / 2 + 9 * h / 16, h))) \/
  (16 * w < 9 * h /\
   geometry (reframed w h) =
   (w, 16 * w / 9,
    (0, (h - 16 * w / 9) / 2, w, (h - 16 * w / 9) / 2 + 16 * w / 9))) \/
  ((16 * w = 9 * h \/ (w = 1 /\ h = 1)) /\ reframed w h = source_clip w h).
Proof.
  intros Hw Hh. unfold reframed. cbv zeta.
  destruct (9 * h <? 16 * w) eqn:E1.
  - apply Z.ltb_lt in E1.
    destruct ((w - 9 * h / 16) / 2 + 9 * h / 16 =? 0) eqn:E0.
    + apply Z.eqb_eq in E0. right. right.
      split; [right; Z.div_mod_to_equations; lia|reflexivity].
    + apply Z.eqb_neq in E0. left.
      split; [exact E1|]. split; [|reflexivity].
      intros [-> ->]. apply E0. reflexivity.
  - destruct (16 * w <? 9 * h) eqn:E2; [apply Z.ltb_lt in E2; auto|].
    apply Z.ltb_ge in E1, E2. right. right. split; [lia|reflexivity].
Qed.

Lemma Qlt_inject_scaled (a b c : Z) :
  (inject_Z a * (9 # 16) + inject_Z c < inject_Z b)%Q <->
  9 * a + 16 * c < 16 * b.
Proof. unfold Qlt, Qplus, Qmult, inject_Z. simpl. lia. Qed.

Lemma Qgt_inject_scaled (a b c : Z) :
  (inject_Z b < inject_Z a * (9 # 16) + inject_Z c)%Q <->
  16 * b < 9 * a + 16 * c.
Proof. unfold Qlt, Qplus, Qmult, inject_Z. simpl. lia. Qed.

Lemma geometry_inv (c : clip) (a b x1 y1 x2 y2 : Z) :
  geometry c = (a, b, (x1, y1, x2, y2)) ->
  clip_w c = a /\ clip_h c = b /\
  view_x1 c = x1 /\ view_y1 c = y1 /\ view_x2 c = x2 /\ view_y2 c = y2.
Proof. unfold geometry. intros H. injection H. intros. repeat split; assumption. Qed.

(** C1, amended.  Whenever [save_clip] succeeds with [vertical=True] on a
    source of [w] by [h] pixels, the clip it writes is: for [w/h > 9/16] and
    a frame other than 1 by 1, the full height and the centred columns of
    width [floor(h * 9/16)]; for [w/h < 9/16], the full width and the
    centred rows of height [floor(w * 16/9)]; for [w/h = 9/16], and for the
    1 by 1 frame, the whole frame.  In every case the shown rectangle has
    the clip's size, the width is within one pixel of 9/16 of the height,
    neither dimension exceeds the original, and the margins removed on
    opposite sides differ by at most one pixel. *)
Theorem C1_vertical_center_crop (W : media_world) (video_path : string)
    (start_time end_time : Q) (output_path : string)
    (subtitles : list segment) (disk disk' : gmap string video_file)
    (p : string) (w h : Z) :
  video_file_clip W video_path = inr (w, h) ->
  0 < w -> 0 < h ->
  save_clip W video_path start_time end_time output_path subtitles true disk
  = (inr p, disk') ->
  exists out : clip,
    vf_clip <$> (disk' !! output_path) = Some out /\
    ((9 # 16 < inject_Z w / inject_Z h)%Q -> ~ (w = 1 /\ h = 1) ->
     clip_w out = Qfloor (inject_Z h * (9 # 16)) /\ clip_h out = h /\
     view_x1 out = (w - clip_w out) / 2 /\
     view_y1 out = 0 /\ view_y2 out = h) /\
    ((inject_Z w / inject_Z h < 9 # 16)%Q ->
     clip_h out = Qfloor (inject_Z w * (16 # 9)) /\ clip_w out = w /\
     view_y1 out = (h - clip_h out) / 2 /\
     view_x1 out = 0 /\ view_x2 out = w) /\
    ((inject_Z w / inject_Z h == 9 # 16)%Q ->
     geometry out = geometry (source_clip w h)) /\
    (w = 1 /\ h = 1 -> geometry out = geometry (source_clip w h)) /\
    view_x2 out - view_x1 out = clip_w out /\
    view_y2 out - view_y1 out = clip_h out /\
    (inject_Z (clip_h out) * (9 # 16) + inject_Z (-1) < inject_Z (clip_w out))%Q /\
    (inject_Z (clip_w out) < inject_Z (clip_h out) * (9 # 16) + inject_Z 1)%Q /\
    0 <= clip_w out <= w /\ 0 <= clip_h out <= h /\
    0 <= view_x1 out /\
    view_x1 out <= w - view_x2 out <= view_x1 out + 1 /\
    0 <= view_y1 out /\
    view_y1 out <= h - view_y2 out <= view_y1 out + 1.
Proof.
  intros Hopen Hw Hh Hrun.
  apply save_clip_success in Hrun
    as (w' & h' & base & final & Hopen' & Hvert & Hgeo & _ & _ & _ & _ & ->).
  rewrite Hopen in Hopen'. injection Hopen' as <- <-.
  rewrite reframe_vertical_source in Hvert by assumption.
  injection Hvert as <-.
  exists final. split; [now rewrite lookup_insert_eq|].
  fold target_aspect_ratio.
  rewrite aspect_wide_iff, aspect_tall_iff, aspect_exact_iff by assumption.
  rewrite floor_nine_sixteenths, floor_sixteen_ninths.
  rewrite Qlt_inject_scaled, Qgt_inject_scaled.
  destruct (reframed_cases w h Hw Hh) as [(Hc & Hne & E)|[[Hc E]|[Hc E]]];
    [rewrite E in Hgeo .. | rewrite E in Hgeo; cbn in Hgeo];
    pose proof Hgeo as G;
    apply geometry_inv in G as (Gw & Gh & Gx1 & Gy1 & Gx2 & Gy2);
    rewrite Gw, Gh, Gx1, Gy1, Gx2, Gy2;
    (repeat split; try (intros; cbn; Z.div_mod_to_equations; lia)).
  all: intros _; exact Hgeo.
Qed.

(** C1 as stated fails on a source of one pixel: the frame is wider than
    9:16, [floor(1 * 9/16)] is [0], and the clip written is still one pixel
    wide. *)
Lemma C1_counterexample :
  exists out : clip,
    video_file_clip tiny_media "dot.mp4" = inr (1, 1) /\
    save_clip tiny_media "dot.mp4" 0 1 "short.mp4" [] true ∅
    = (inr "short.mp4", <["short.mp4" := VideoFile out "libx264" "aac"]> ∅) /\
    (9 # 16 < inject_Z 1 / inject_Z 1)%Q /\
    Qfloor (inject_Z 1 * (9 # 16)) = 0 /\
    clip_w out = 1.
Proof.
  exists (source_clip 1 1). repeat split; reflexivity.
Qed.

(** ** Subtitle selection and re-timing *)

Lemma clip_subtitles_selected (subtitles : list segment) (start_time end_time : Q) :
  clip_subtitles subtitles start_time end_time
  = map (retime start_time end_time) (selected start_time end_time subtitles).
Proof.
  induction subtitles as [|[[st et] text] rest IH]; [reflexivity|].
  cbn [clip_subtitles]. unfold selected. cbn [List.filter fst snd].
  fold (selected start_time end_time rest).
  destruct (Py.Qltb start_time et && Py.Qltb st end_time).
  - cbn [map]. unfold retime at 1. cbn [fst snd]. f_equal. exact IH.
  - exact IH.
Qed.

Lemma selected_In (start_time end_time : Q) (subtitles : list segment)
    (st et : Q) (text : string) :
  In (st, et, text) (selected start_time end_time subtitles) <->
  In (st, et, text) subtitles /\ (start_time < et)%Q /\ (st < end_time)%Q.
Proof.
  unfold selected. rewrite filter_In. cbn [fst snd].
  rewrite andb_true_iff, !Qltb_lt. reflexivity.
Qed.

(** C2.  The captions of a clip are the overlapping segments, each re-timed
    to [rel_start = max(0, start_time - clip_start)] and
    [rel_end = min(end_time - clip_start, clip_end - clip_start)] with its
    text unchanged; segment [(5, 12, "hi")] in clip range [(8, 20)] becomes
    [(0, 4, "hi")]. *)
Theorem C2_retiming (subtitles : list segment) (clip_start clip_end : Q) :
  Forall2
    (fun s r =>
       (fst (fst r) == Qmax 0 (fst (fst s) - clip_start))%Q /\
       (snd (fst r) == Qmin (snd (fst s) - clip_start) (clip_end - clip_start))%Q /\
       snd r = snd s)
    (selected clip_start clip_end subtitles)
    (clip_subtitles subtitles clip_start clip_end) /\
  clip_subtitles [(5, 12, "hi")]%Q 8 20 = [(0, 4, "hi")]%Q.
Proof.
  split; [|reflexivity].
  rewrite clip_subtitles_selected.
  induction (selected clip_start clip_end subtitles) as [|s sel IH];
    constructor; [|exact IH].
  unfold retime. cbn [fst snd].
  split; [apply py_max_Qmax|]. split; [apply py_min_Qmin|reflexivity].
Qed.

(** C3.  A segment contributes a caption exactly when
    [end_time > clip_start] and [start_time < clip_end]: the captions are
    the re-timed images of those segments, in order, so a segment that ends
    at or before the clip start, or starts at or after the clip end, is left
    out; [(0, 3, "x")] yields no caption in clip range [(8, 20)]. *)
Theorem C3_overlap_selection (subtitles : list segment) (clip_start clip_end : Q) :
  clip_subtitles subtitles clip_start clip_end
  = map (retime clip_start clip_end) (selected clip_start clip_end subtitles) /\
  (forall st et text,
      In (st, et, text) (selected clip_start clip_end subtitles) <->
      In (st, et, text) subtitles /\ (clip_start < et)%Q /\ (st < clip_end)%Q) /\
  (forall st et text,
      (et <= clip_start)%Q \/ (clip_end <= st)%Q ->
      ~ In (st, et, text) (selected clip_start clip_end subtitles)) /\
  clip_subtitles [(0, 3, "x")]%Q 8 20 = [].
Proof.
  split; [apply clip_subtitles_selected|].
  split; [intros; apply selected_In|].
  split; [|reflexivity].
  intros st et text Hout Hin. apply selected_In in Hin as (_ & H1 & H2).
  destruct Hout as [H|H]; lra.
Qed.

Lemma retime_range_ok (clip_start clip_end st et : Q) (text : string) :
  (clip_start < clip_end)%Q -> (st < et)%Q ->
  (clip_start < et)%Q -> (st < clip_end)%Q ->
  caption_range_ok (clip_end - clip_start)
    (fst (fst (retime clip_start clip_end (st, et, text))))
    (snd (fst (retime clip_start clip_end (st, et, text)))).
Proof.
  intros Hclip Hseg H1 H2. unfold caption_range_ok, retime. cbn [fst snd].
  rewrite py_max_Qmax, py_min_Qmin.
  repeat split.
  - apply Q.le_max_l.
  - apply Q.max_lub; apply Q.min_glb; lra.
  - apply Q.le_min_r.
Qed.

Lemma clip_subtitles_ranges (subtitles : list segment) (clip_start clip_end : Q) :
  (clip_start < clip_end)%Q ->
  Forall (fun s => (fst (fst s) < snd (fst s))%Q) subtitles ->
  Forall (fun r => caption_range_ok (clip_end - clip_start)
                     (fst (fst r)) (snd (fst r)))
         (clip_subtitles subtitles clip_start clip_end).
Proof.
  intros Hclip Hsegs. rewrite clip_subtitles_selected.
  apply List.Forall_forall. intros r Hr.
  apply in_map_iff in Hr as ([[st et] text] & <- & Hsel).
  apply selected_In in Hsel as (Hin & H1 & H2).
  rewrite List.Forall_forall in Hsegs. specialize (Hsegs _ Hin). cbn in Hsegs.
  now apply retime_range_ok.
Qed.

(** C9, amended.  If every input segment has [0 <= start_time < end_time]
    and the clip range has [clip_start < clip_end], every re-timed segment
    handed to caption rendering has
    [0 <= rel_start <= rel_end <= clip_end - clip_start], and so has every
    caption of the clip that [save_clip] writes: a caption's range is never
    inverted and never extends past the clip's duration. *)
Theorem C9_caption_ranges_not_inverted (subtitles : list segment)
    (clip_start clip_end : Q) :
  (clip_start < clip_end)%Q ->
  Forall (fun s => (0 <= fst (fst s))%Q /\ (fst (fst s) < snd (fst s))%Q)
         subtitles ->
  Forall (fun r => (0 <= fst (fst r))%Q /\
                   (fst (fst r) <= snd (fst r))%Q /\
                   (snd (fst r) <= clip_end - clip_start)%Q)
         (clip_subtitles subtitles clip_start clip_end) /\
  forall (W : media_world) (video_path output_path p : string)
         (vertical : bool) (disk disk' : gmap string video_file),
    save_clip W video_path clip_start clip_end output_path subtitles vertical disk
    = (inr p, disk') ->
    exists vf : video_file,
      disk' !! output_path = Some vf /\
      Forall (fun t => (0 <= tc_start t)%Q /\
                       (tc_start t <= tc_end t)%Q /\
                       (tc_end t <= clip_end - clip_start)%Q)
             (clip_layers (vf_clip vf)).
Proof.
  intros Hclip Hsegs.
  assert (Hok : Forall (fun r => (0 <= fst (fst r))%Q /\
                                 (fst (fst r) <= snd (fst r))%Q /\
                                 (snd (fst r) <= clip_end - clip_start)%Q)
                       (clip_subtitles subtitles clip_start clip_end)).
  { apply clip_subtitles_ranges; [assumption|].
    eapply List.Forall_impl; [|exact Hsegs]. intros s [_ H]. exact H. }
  split; [exact Hok|].
  intros W video_path output_path p vertical disk disk' Hrun.
  apply save_clip_success in Hrun
    as (w & h & base & final & _ & _ & _ & _ & Hcap & _ & _ & ->).
  exists (VideoFile final "libx264" "aac").
  split; [apply lookup_insert_eq|]. cbn [vf_clip].
  rewrite <- Hcap in Hok. rewrite List.Forall_map in Hok. exact Hok.
Qed.

(** C9 as stated fails in binary64 arithmetic: the segment [(10, 20)] in
    the clip range from [2 - 3 * 2^-50] to [10 + 2^-49] is selected, and
    both [10 - clip_start] and [clip_end - clip_start] round to
    [8 + 2^-48], so the caption's range is empty.  It is not inverted and
    does not extend past the clip's duration. *)
Lemma C9_counterexample :
  PrimFloat.ltb Binary64.tight_clip_start Binary64.tight_clip_end = true /\
  PrimFloat.leb (Binary64.of_int 0) (Binary64.of_int 10) = true /\
  PrimFloat.ltb (Binary64.of_int 10) (Binary64.of_int 20) = true /\
  map (fun r => (PrimFloat.ltb (fst (fst r)) (snd (fst r)),
                 PrimFloat.eqb (fst (fst r)) (snd (fst r)),
                 PrimFloat.leb (Binary64.of_int 0) (fst (fst r)),
                 PrimFloat.leb (snd (fst r))
                               (PrimFloat.sub Binary64.tight_clip_end
                                              Binary64.tight_clip_start),
                 snd r))
      (Binary64.clip_subtitles
         [(Binary64.of_int 10, Binary64.of_int 20, "hi")]
         Binary64.tight_clip_start Binary64.tight_clip_end)
  = [(false, true, true, true, "hi")].
Proof. vm_compute. repeat split. Qed.

(** ** Transcription *)

Lemma create_then_remove (name : string) (fs : gset string) :
  ({[name]} ∪ fs) ∖ {[name]} = fs ∖ {[name]}.
Proof.
  apply set_eq. intros x.
  rewrite !elem_of_difference, elem_of_union, elem_of_singleton. tauto.
Qed.

Lemma created_exists (name : string) (fs : gset string) : name ∈ {[name]} ∪ fs.
Proof. apply elem_of_union_l, elem_of_singleton. reflexivity. Qed.

Lemma remove_none (fs : gset string) : fs = fs ∖ list_to_set (@nil string).
Proof. cbn. symmetry. apply difference_empty_L. Qed.

Lemma remove_one_more (name : string) (names : list string) (fs : gset string) :
  fs ∖ {[name]} ∖ list_to_set names = fs ∖ list_to_set (name :: names).
Proof.
  apply set_eq. intros x. cbn [list_to_set foldr].
  rewrite !elem_of_difference, elem_of_union, elem_of_singleton. tauto.
Qed.

Section SpeechFacts.

Variable W : speech_world.

Lemma transcribe_chunk_ok (len_audio i : Z) (subtitles : list segment)
    (s : os_state) :
  chunk_ok W i = true ->
  transcribe_chunk W len_audio i subtitles s
  = (inr (subtitles ++ recognized W len_audio i),
     OsState (files s ∖ {[chunk_file i]}) (stdout s)).
Proof.
  unfold chunk_ok, transcribe_chunk, recognized, bind, export, check,
    try_except, call, os_remove, ret.
  destruct (export_fails W i); [discriminate|].
  destruct (audio_file_fails W i); [discriminate|].
  destruct (record_fails W i); [discriminate|].
  destruct (remove_fails W i); [discriminate|]. intros _.
  destruct (recognize_google W i) as [e|text]; cbn [files stdout];
    (destruct (decide _) as [_|Hnot]; [|destruct Hnot; apply created_exists]);
    rewrite create_then_remove; [rewrite app_nil_r|]; reflexivity.
Qed.

Lemma transcribe_chunk_fail (len_audio i : Z) (subtitles : list segment)
    (s : os_state) :
  chunk_ok W i = false ->
  exists e s', transcribe_chunk W len_audio i subtitles s = (inl e, s') /\
               stdout s' = stdout s.
Proof.
  unfold chunk_ok, transcribe_chunk, bind, export, check,
    try_except, call, os_remove, ret.
  destruct (export_fails W i) as [[e partial]|].
  { intros _. destruct partial; eauto. }
  destruct (audio_file_fails W i) as [e|]; [eauto|].
  destruct (record_fails W i) as [e|]; [eauto|].
  destruct (remove_fails W i) as [e|]; [|discriminate]. intros _.
  destruct (recognize_google W i); cbn [files stdout];
    (destruct (decide _) as [_|Hnot]; [eauto|destruct Hnot; apply created_exists]).
Qed.

Lemma for_each_ok (len_audio : Z) :
  forall (offsets : list Z) (acc : list segment) (s : os_state),
    forallb (chunk_ok W) offsets = true ->
    for_each offsets (transcribe_chunk W len_audio) acc s
    = (inr (acc ++ flat_map (recognized W len_audio) offsets),
       OsState (files s ∖ list_to_set (map chunk_file offsets)) (stdout s)).
Proof.
  induction offsets as [|i offsets IH]; intros acc s Hok.
  - cbn. rewrite app_nil_r. destruct s as [fs out]. cbn.
    do 2 f_equal. apply remove_none.
  - cbn [forallb] in Hok. apply andb_true_iff in Hok as [Hi His].
    cbn [for_each]. unfold bind at 1.
    rewrite transcribe_chunk_ok by assumption.
    rewrite IH by assumption. cbn [files stdout flat_map map].
    rewrite app_assoc. do 2 f_equal.
    apply remove_one_more.
Qed.

Lemma for_each_fail (len_audio : Z) :
  forall (offsets : list Z) (acc : list segment) (s : os_state),
    forallb (chunk_ok W) offsets = false ->
    exists e s', for_each offsets (transcribe_chunk W len_audio) acc s = (inl e, s') /\
                 stdout s' = stdout s.
Proof.
  induction offsets as [|i offsets IH]; intros acc s Hbad; [discriminate|].
  cbn [forallb] in Hbad. cbn [for_each]. unfold bind at 1.
  destruct (chunk_ok W i) eqn:Hi.
  - rewrite transcribe_chunk_ok by assumption.
    destruct (IH (acc ++ recognized W len_audio i)
                 (OsState (files s ∖ {[chunk_file i]}) (stdout s)) Hbad)
      as (e & s' & Hrun & Hout).
    eauto.
  - destruct (transcribe_chunk_fail len_audio i acc s Hi)
      as (e & s' & Hrun & Hout).
    rewrite Hrun. eauto.
Qed.

(** When nothing but recognition fails, the call returns the segments of
    the recognised windows and removes every chunk file. *)
Lemma generate_subtitles_healthy (audio_path : string) (len_audio : Z)
    (s : os_state) :
  healthy W audio_path = true ->
  from_wav W audio_path = inr len_audio ->
  generate_subtitles W audio_path s
  = (inr (flat_map (recognized W len_audio)
                   (Py.range 0 len_audio chunk_duration)),
     OsState (files s ∖ list_to_set
                (map chunk_file (Py.range 0 len_audio chunk_duration)))
             (stdout s)).
Proof.
  unfold healthy, generate_subtitles, try_except, bind, check, call.
  destruct (recognizer_fails W); [discriminate|].
  intros Hok Hlen. rewrite Hlen in *.
  rewrite for_each_ok by assumption. reflexivity.
Qed.

(** When something else fails, the call prints the error and returns the
    empty list. *)
Lemma generate_subtitles_unhealthy (audio_path : string) (s : os_state) :
  healthy W audio_path = false ->
  exists e s', generate_subtitles W audio_path s = (inr [], s') /\
               stdout s' = stdout s ++ ["Error generating subtitles: " +:+ e].
Proof.
  unfold healthy, generate_subtitles, try_except, bind, check, call, print, ret.
  destruct (recognizer_fails W) as [e|]; [eauto|].
  destruct (from_wav W audio_path) as [e|len_audio]; [eauto|].
  intros Hbad.
  destruct (for_each_fail len_audio _ [] s Hbad) as (e & s' & Hrun & Hout).
  rewrite Hrun. cbn [files stdout]. rewrite Hout. eauto.
Qed.

End SpeechFacts.

(** *** The windows *)

Lemma window_count (len_audio : Z) :
  Qceiling (inject_Z len_audio / 1000 / 10) = (len_audio + 9999) / 10000.
Proof.
  unfold Qceiling, Qfloor, Qdiv, Qmult, Qinv, Qopp, inject_Z. simpl.
  Z.div_mod_to_equations. lia.
Qed.

Lemma range_windows (len_audio : Z) :
  Py.range 0 len_audio chunk_duration
  = map (fun j => Z.of_nat j * 10000)
        (seq 0 (Z.to_nat ((len_audio + 9999) / 10000))).
Proof.
  unfold chunk_duration. rewrite range_multiples by lia.
  replace (len_audio + 10000 - 1) with (len_audio + 9999) by ring.
  reflexivity.
Qed.

Lemma chunk_start_time_multiple (k : Z) :
  (chunk_start_time (k * 10000) == inject_Z k * 10)%Q.
Proof. unfold chunk_start_time, Qeq, Qdiv, Qmult, Qinv, inject_Z. simpl. lia. Qed.

Lemma chunk_end_time_min (len_audio i : Z) :
  (chunk_end_time len_audio i
   == Qmin (chunk_start_time i + 10) (inject_Z len_audio / 1000))%Q.
Proof.
  unfold chunk_end_time. rewrite py_min_Qmin.
  assert (E : (inject_Z (i + chunk_duration) / 1000 == chunk_start_time i + 10)%Q).
  { unfold chunk_start_time, chunk_duration, Qeq, Qdiv, Qmult, Qplus, Qinv,
      inject_Z. simpl. lia. }
  destruct (Qlt_le_dec (inject_Z len_audio / 1000)
                       (inject_Z (i + chunk_duration) / 1000)) as [H|H].
  - rewrite !Q.min_r by lra. reflexivity.
  - rewrite !Q.min_l by lra. exact E.
Qed.

Lemma Qlt_thousandths (a b : Z) :
  (inject_Z a / 1000 < inject_Z b / 1000)%Q <-> a < b.
Proof. unfold Qlt, Qdiv, Qmult, Qinv, inject_Z. simpl. lia. Qed.

Lemma Qle_thousandths (a b : Z) :
  (inject_Z a / 1000 <= inject_Z b / 1000)%Q <-> a <= b.
Proof. unfold Qle, Qdiv, Qmult, Qinv, inject_Z. simpl. lia. Qed.

(** A window that reaches the end of the audio ends there. *)
Lemma chunk_end_time_last (len_audio i : Z) :
  len_audio <= i + chunk_duration ->
  (chunk_end_time len_audio i == inject_Z len_audio / 1000)%Q.
Proof.
  intros H. unfold chunk_end_time. rewrite py_min_Qmin.
  apply Q.min_r. now apply Qle_thousandths.
Qed.

(** A window that stops short of the end of the audio is ten seconds long. *)
Lemma chunk_end_time_inner (len_audio i : Z) :
  i + chunk_duration <= len_audio ->
  (chunk_end_time len_audio i == chunk_start_time (i + chunk_duration))%Q.
Proof.
  intros H. unfold chunk_end_time. rewrite py_min_Qmin.
  apply Q.min_l. now apply Qle_thousandths.
Qed.

Lemma windows_lookup (len_audio : Z) (k : nat) (s e : Q) :
  windows len_audio !! k = Some (s, e) ->
  Z.of_nat k * 10000 < len_audio /\
  s = chunk_start_time (Z.of_nat k * 10000) /\
  e = chunk_end_time len_audio (Z.of_nat k * 10000).
Proof.
  unfold windows. rewrite range_windows, map_map.
  intros H. apply list_lookup_fmap_Some in H as (j & Hse & Hj).
  apply lookup_seq in Hj as [-> Hk]. cbn in Hk.
  injection Hse as -> ->.
  repeat split; try reflexivity.
  assert (Z.of_nat k < (len_audio + 9999) / 10000) by lia.
  Z.div_mod_to_equations. lia.
Qed.

Lemma windows_length (len_audio : Z) :
  length (windows len_audio) = Z.to_nat ((len_audio + 9999) / 10000).
Proof.
  unfold windows. rewrite range_windows, !length_map, length_seq. reflexivity.
Qed.

(** *** What the call returns *)

Lemma generate_subtitles_returns (W : speech_world) (audio_path : string)
    (s : os_state) :
  exists s', generate_subtitles W audio_path s = (inr (transcript W audio_path), s').
Proof.
  unfold transcript. destruct (healthy W audio_path) eqn:Hh.
  - destruct (from_wav W audio_path) as [e|len_audio] eqn:Hlen.
    + unfold healthy in Hh. rewrite Hlen in Hh.
      destruct (recognizer_fails W); discriminate.
    + rewrite (generate_subtitles_healthy W audio_path len_audio s Hh Hlen).
      eauto.
  - destruct (generate_subtitles_unhealthy W audio_path s Hh)
      as (e & s' & Hrun & _).
    rewrite Hrun. destruct (from_wav W audio_path); eauto.
Qed.

Lemma multiples_sorted (n a : nat) :
  StronglySorted Z.lt (map (fun j => Z.of_nat j * 10000) (seq a n)).
Proof.
  revert a. induction n as [|n IH]; intros a; cbn; constructor.
  - apply IH.
  - apply List.Forall_forall. intros x Hx.
    apply in_map_iff in Hx as (j & <- & Hj). apply in_seq in Hj. lia.
Qed.

Lemma recognized_In (W : speech_world) (len_audio : Z) (offsets : list Z)
    (seg : segment) :
  In seg (flat_map (recognized W len_audio) offsets) ->
  exists i text,
    In i offsets /\ recognize_google W i = inr text /\
    seg = (chunk_start_time i, chunk_end_time len_audio i, text).
Proof.
  intros H. apply in_flat_map in H as (i & Hi & Hseg).
  unfold recognized in Hseg.
  destruct (recognize_google W i) as [e|text] eqn:E; [destruct Hseg|].
  destruct Hseg as [<-|[]]. eauto.
Qed.

Lemma recognized_sorted (W : speech_world) (len_audio : Z) (offsets : list Z) :
  StronglySorted Z.lt offsets ->
  StronglySorted starts_before (flat_map (recognized W len_audio) offsets).
Proof.
  induction 1 as [|i offsets Hsorted IH Hall]; cbn [flat_map]; [constructor|].
  unfold recognized at 1.
  destruct (recognize_google W i) as [e|text]; [exact IH|].
  cbn [app]. constructor; [exact IH|].
  apply List.Forall_forall. intros seg Hseg.
  apply recognized_In in Hseg as (j & text' & Hj & _ & ->).
  rewrite List.Forall_forall in Hall. specialize (Hall _ Hj).
  unfold starts_before, chunk_start_time. cbn [fst].
  now apply Qlt_thousandths.
Qed.

Lemma recognized_sublist (W : speech_world) (len_audio : Z) (offsets : list Z) :
  map fst (flat_map (recognized W len_audio) offsets)
  `sublist_of`
  map (fun i => (chunk_start_time i, chunk_end_time len_audio i)) offsets.
Proof.
  induction offsets as [|i offsets IH]; cbn [flat_map map]; [constructor|].
  unfold recognized at 1.
  destruct (recognize_google W i) as [e|text]; cbn [app map fst].
  - now apply sublist_cons.
  - now apply sublist_skip.
Qed.

Lemma recognized_all (W : speech_world) (len_audio : Z) (offsets : list Z) :
  (forall i, In i offsets -> exists text, recognize_google W i = inr text) ->
  map fst (flat_map (recognized W len_audio) offsets)
  = map (fun i => (chunk_start_time i, chunk_end_time len_audio i)) offsets.
Proof.
  induction offsets as [|i offsets IH]; intros Hall; [reflexivity|].
  cbn [flat_map map]. unfold recognized at 1.
  destruct (Hall i (or_introl eq_refl)) as [text ->].
  cbn [app map fst]. f_equal. apply IH. intros j Hj. apply Hall. now right.
Qed.

Lemma transcript_sorted (W : speech_world) (audio_path : string) :
  StronglySorted starts_before (transcript W audio_path).
Proof.
  unfold transcript.
  destruct (from_wav W audio_path) as [e|len_audio]; [constructor|].
  destruct (healthy W audio_path); [|constructor].
  apply recognized_sorted. rewrite range_windows. apply multiples_sorted.
Qed.

Lemma transcript_sublist (W : speech_world) (audio_path : string) (len_audio : Z) :
  from_wav W audio_path = inr len_audio ->
  map fst (transcript W audio_path) `sublist_of` windows len_audio.
Proof.
  intros Hlen. unfold transcript. rewrite Hlen.
  destruct (healthy W audio_path).
  - apply recognized_sublist.
  - apply sublist_nil_l.
Qed.

(** C4.  An audio of [D = len(audio) / 1000] seconds is cut into
    [ceil(D / 10.0)] windows; window [k] starts at [k * 10.0] and ends at
    [min(start_time + 10.0, D)]; consecutive windows are contiguous; the last
    window ends at [D] itself, before [start_time + 10.0] when [D] is not a
    multiple of ten seconds; and the segments [generate_subtitles] returns
    are taken from these windows in chronological order (all of them, when
    every window is recognised and nothing else fails). *)
Theorem C4_fixed_windows (len_audio : Z) :
  length (windows len_audio)
  = Z.to_nat (Qceiling (inject_Z len_audio / 1000 / 10)) /\
  (forall (k : nat) (s e : Q),
      windows len_audio !! k = Some (s, e) ->
      (s == inject_Z (Z.of_nat k) * 10)%Q /\
      (e == Qmin (s + 10) (inject_Z len_audio / 1000))%Q) /\
  (forall (k : nat) (s e s' e' : Q),
      windows len_audio !! k = Some (s, e) ->
      windows len_audio !! S k = Some (s', e') ->
      (e == s')%Q) /\
  (forall s e : Q,
      last (windows len_audio) = Some (s, e) ->
      (e == inject_Z len_audio / 1000)%Q /\
      (len_audio mod 10000 <> 0 -> (e < s + 10)%Q)) /\
  (forall (W : speech_world) (audio_path : string) (st : os_state),
      from_wav W audio_path = inr len_audio ->
      exists (subtitles : list segment) (st' : os_state),
        generate_subtitles W audio_path st = (inr subtitles, st') /\
        map fst subtitles `sublist_of` windows len_audio /\
        StronglySorted starts_before subtitles /\
        (healthy W audio_path = true ->
         (forall i, exists text, recognize_google W i = inr text) ->
         map fst subtitles = windows len_audio)).
Proof.
  split; [|split; [|split; [|split]]].
  - rewrite windows_length, window_count. reflexivity.
  - intros k s e H. apply windows_lookup in H as (_ & -> & ->).
    split; [apply chunk_start_time_multiple|apply chunk_end_time_min].
  - intros k s e s' e' H H'.
    apply windows_lookup in H as (_ & _ & ->).
    apply windows_lookup in H' as (Hlt & -> & _).
    rewrite chunk_end_time_inner by (unfold chunk_duration; lia).
    unfold chunk_duration.
    replace (Z.of_nat k * 10000 + 10000) with (Z.of_nat (S k) * 10000) by lia.
    reflexivity.
  - intros s e H. rewrite last_lookup in H.
    pose proof (lookup_lt_Some _ _ _ H) as Hk.
    apply windows_lookup in H as (_ & -> & ->).
    rewrite windows_length in Hk |- *.
    set (n := (len_audio + 9999) / 10000) in *.
    assert (Hn : len_audio <= 10000 * n)
      by (subst n; Z.div_mod_to_equations; lia).
    assert (Hend : (chunk_end_time len_audio (Z.of_nat (Init.Nat.pred (Z.to_nat n)) * 10000)
                    == inject_Z len_audio / 1000)%Q).
    { apply chunk_end_time_last. unfold chunk_duration. lia. }
    split; [exact Hend|].
    intros Hrem. rewrite Hend.
    assert (Hshort : len_audio < Z.of_nat (Init.Nat.pred (Z.to_nat n)) * 10000 + 10000)
      by (subst n; Z.div_mod_to_equations; lia).
    revert Hshort. generalize (Z.of_nat (Init.Nat.pred (Z.to_nat n)) * 10000).
    intros i Hshort.
    unfold chunk_start_time, Qlt, Qplus, Qdiv, Qmult, Qinv, inject_Z. simpl. lia.
  - intros W audio_path st Hlen.
    destruct (generate_subtitles_returns W audio_path st) as [st' Hrun].
    exists (transcript W audio_path), st'.
    split; [exact Hrun|].
    split; [now apply transcript_sublist|].
    split; [apply transcript_sorted|].
    intros Hh Hall. unfold transcript. rewrite Hlen, Hh.
    apply recognized_all. intros i _. apply Hall.
Qed.

(** *** Failures *)

Lemma Qeq_thousandths (a b : Z) :
  (inject_Z a / 1000 == inject_Z b / 1000)%Q <-> a = b.
Proof. unfold Qeq, Qdiv, Qmult, Qinv, inject_Z. simpl. lia. Qed.


(** C5.  The call always returns a list.  When no library call other than
    recognitions raises, the list holds the segment of every window whose
    recognition succeeded, in window order, and no segment of a window whose
    recognition failed; in particular it is empty when every recognition
    fails. *)
Theorem C5_recognition_failures_skipped (W : speech_world)
    (audio_path : string) (st : os_state) :
  exists (subtitles : list segment) (st' : os_state),
    generate_subtitles W audio_path st = (inr subtitles, st') /\
    forall len_audio : Z,
      healthy W audio_path = true ->
      from_wav W audio_path = inr len_audio ->
      subtitles = flat_map (recognized W len_audio)
                           (Py.range 0 len_audio chunk_duration) /\
      (forall i text,
          In i (Py.range 0 len_audio chunk_duration) ->
          recognize_google W i = inr text ->
          In (chunk_start_time i, chunk_end_time len_audio i, text) subtitles) /\
      (forall i e seg,
          recognize_google W i = inl e ->
          In seg subtitles ->
          ~ (fst (fst seg) == chunk_start_time i)%Q) /\
      ((forall i, In i (Py.range 0 len_audio chunk_duration) ->
                  exists e, recognize_google W i = inl e) ->
       subtitles = []).
Proof.
  destruct (generate_subtitles_returns W audio_path st) as [st' Hrun].
  exists (transcript W audio_path), st'. split; [exact Hrun|].
  intros len_audio Hh Hlen. unfold transcript. rewrite Hlen, Hh.
  split; [reflexivity|]. split; [|split].
  - intros i text Hi Hrec. apply in_flat_map. exists i. split; [exact Hi|].
    unfold recognized. rewrite Hrec. now left.
  - intros i e seg Hfail Hseg Heq.
    apply recognized_In in Hseg as (j & text & _ & Hj & ->).
    cbn [fst] in Heq. unfold chunk_start_time in Heq.
    apply Qeq_thousandths in Heq as ->. congruence.
  - intros Hall.
    induction (Py.range 0 len_audio chunk_duration) as [|i offsets IH];
      [reflexivity|].
    cbn [flat_map]. unfold recognized at 1.
    destruct (Hall i (or_introl eq_refl)) as [e ->].
    apply IH. intros j Hj. apply Hall. now right.
Qed.


(** ** Rendering: codecs and filters *)

Lemma pure_ret {S A} (a : A) : pure_state (@ret S A a).
Proof. intros s r s'. unfold ret. now intros [= _ <-]. Qed.

Lemma pure_raise {S A} (e : exn) : pure_state (@raise S A e).
Proof. intros s r s'. unfold raise. now intros [= _ <-]. Qed.

Lemma pure_call {S A} (outcome : exn + A) : pure_state (@call S A outcome).
Proof. intros s r s'. unfold call. now intros [= _ <-]. Qed.

Lemma pure_check {S} (failure : option exn) : pure_state (@check S failure).
Proof. intros s r s'. unfold check. destruct failure; now intros [= _ <-]. Qed.

Lemma pure_bind {S A B} (m : M S A) (k : A -> M S B) :
  pure_state m -> (forall a, pure_state (k a)) -> pure_state (bind m k).
Proof.
  intros Hm Hk s r s'. unfold bind.
  destruct (m s) as [[e|a] s1] eqn:E; apply Hm in E as ->.
  - now intros [= _ <-].
  - apply Hk.
Qed.

Lemma pure_reframe_vertical {S} (c : clip) : pure_state (@reframe_vertical S c).
Proof.
  unfold reframe_vertical.
  repeat match goal with |- context [if ?b then _ else _] => destruct b end;
    (apply pure_ret || apply pure_raise).
Qed.

Lemma pure_subtitle_clips (W : media_world) (c : clip) (subs : list segment) :
  pure_state (subtitle_clips W c subs).
Proof.
  induction subs as [|[[st et] text] rest IH]; cbn [subtitle_clips].
  - apply pure_ret.
  - apply pure_bind; [apply pure_check|]. intros _.
    apply pure_bind; [exact IH|]. intros tail. apply pure_ret.
Qed.

Lemma writes_bind_pure {A} (W : media_world) (path : string)
    (m : M (gmap string video_file) A)
    (k : A -> M (gmap string video_file) string) :
  pure_state m -> (forall a, writes_h264_aac W path (fun e => e) (k a)) ->
  writes_h264_aac W path (fun e => e) (bind m k).
Proof.
  intros Hm Hk disk r disk'. unfold bind.
  destruct (m disk) as [[e|a] s1] eqn:E; apply Hm in E as ->.
  - intros [= <- <-]. left. eauto.
  - apply Hk.
Qed.

Lemma writes_write_videofile (W : media_world) (c : clip) (path : string) :
  writes_h264_aac W path (fun e => e)
    (bind (write_videofile W c path "libx264" "aac")
          (fun _ => bind (close W c) (fun _ => ret path))).
Proof.
  intros disk r disk'. unfold bind, write_videofile, close, check, ret.
  intros H. right. exists c. unfold encoded.
  destruct (encode_fails W c path "libx264" "aac") as [e|];
    [|destruct (close_fails W c) as [e|]];
    injection H as <- <-; auto.
Qed.

Lemma writes_try_except (W : media_world) (path : string) (h : exn -> exn)
    (m : M (gmap string video_file) string) :
  writes_h264_aac W path (fun e => e) m ->
  writes_h264_aac W path h (try_except m (fun e => raise (h e))).
Proof.
  intros Hm disk r disk'. unfold try_except, raise.
  destruct (m disk) as [[e|a] s1] eqn:E;
    destruct (Hm _ _ _ E) as [(e' & He & ->)|(c & He & ->)];
    intros [= <- <-].
  - left. injection He as ->. eauto.
  - right. exists c. split; [|reflexivity]. revert He. unfold encoded.
    destruct (encode_fails W c path "libx264" "aac");
      [|destruct (close_fails W c)]; now intros [= ->].
  - discriminate.
  - right. exists c. split; [|reflexivity]. revert He. unfold encoded.
    destruct (encode_fails W c path "libx264" "aac");
      [|destruct (close_fails W c)]; now intros [= ->].
Qed.

Lemma pure_open_video (W : media_world) (path : string) :
  pure_state (open_video W path).
Proof.
  unfold open_video. apply pure_bind; [apply pure_call|].
  intros wh. apply pure_ret.
Qed.

Lemma pure_apply_fx (W : media_world) (c : clip) (t : transform) :
  pure_state (apply_fx W c t).
Proof.
  unfold apply_fx. apply pure_bind; [apply pure_check|]. intros _.
  apply pure_bind; [apply pure_check|]. intros _. apply pure_ret.
Qed.

Lemma save_clip_writes (W : media_world) (video_path : string)
    (start_time end_time : Q) (output_path : string)
    (subtitles : list segment) (vertical : bool) :
  writes_h264_aac W output_path (fun e => "Error saving clip: " +:+ e)
    (save_clip W video_path start_time end_time output_path subtitles vertical).
Proof.
  unfold save_clip. apply writes_try_except.
  apply writes_bind_pure; [apply pure_open_video|].
  intros c0. apply writes_bind_pure.
  { unfold subclip. apply pure_bind; [apply pure_check|].
    intros _. apply pure_ret. }
  intros c1. apply writes_bind_pure.
  { destruct vertical; [apply pure_reframe_vertical|apply pure_ret]. }
  intros c2. apply writes_bind_pure.
  { destruct subtitles; [apply pure_ret|].
    apply pure_bind; [apply pure_subtitle_clips|]. intros l. apply pure_ret. }
  intros c3. apply writes_write_videofile.
Qed.

Lemma apply_filter_writes (W : media_world)
    (input_path output_path filter_name : string) :
  writes_h264_aac W output_path (fun e => "Error applying filter: " +:+ e)
    (apply_filter W input_path output_path filter_name).
Proof.
  unfold apply_filter. apply writes_try_except.
  apply writes_bind_pure; [apply pure_open_video|].
  intros c0. apply writes_bind_pure.
  { repeat match goal with
           | |- context [String.eqb filter_name ?s] =>
               destruct (String.eqb filter_name s)
           end; (apply pure_apply_fx || apply pure_ret). }
  intros c1. apply writes_write_videofile.
Qed.

(** The two outcomes of [writes_h264_aac], without the causes. *)
Lemma writes_outcomes (W : media_world) (path : string) (wrap : exn -> exn)
    (r : exn + string) (disk disk' : gmap string video_file) :
  (exists e, r = inl (wrap e) /\ disk' = disk) \/
  (exists c, r = encoded W c path wrap /\
             disk' = <[path := VideoFile c "libx264" "aac"]> disk) ->
  (exists e, r = inl e /\ disk' = disk) \/
  (exists c, (r = inr path \/ exists e, r = inl e) /\
             disk' = <[path := VideoFile c "libx264" "aac"]> disk).
Proof.
  intros [(e & -> & ->)|(c & -> & ->)]; [left; eauto|].
  right. exists c. split; [|reflexivity]. unfold encoded.
  destruct (encode_fails W c path "libx264" "aac");
    [|destruct (close_fails W c)]; eauto.
Qed.

(** *** Runs that reach the encoder *)

Lemma reframe_vertical_returns {S} (c : clip) (s : S) :
  clip_h c <> 0 -> exists c', reframe_vertical c s = (inr c', s).
Proof.
  intros Hh. unfold reframe_vertical.
  destruct (clip_h c =? 0) eqn:E; [apply Z.eqb_eq in E; contradiction|].
  repeat match goal with |- context [if ?b then _ else _] => destruct b end;
    unfold ret; eauto.
Qed.

Lemma subtitle_clips_returns (W : media_world) (c : clip)
    (subs : list segment) (s : gmap string video_file) :
  (forall text, text_clip_fails W text (clip_w c) = None) ->
  exists layers, subtitle_clips W c subs s = (inr layers, s).
Proof.
  intros Hok. induction subs as [|[[st et] text] rest [layers IH]].
  - eexists. reflexivity.
  - cbn [subtitle_clips]. unfold bind, check, ret. rewrite Hok, IH. eauto.
Qed.

(** Once the encoding of [c] is requested, the call returns the output
    path when neither the encoder nor [close] raises, and raises
    otherwise; the request stands in both cases. *)
Lemma write_and_close (W : media_world) (c : clip) (path : string)
    (h : exn -> exn) (disk : gmap string video_file) :
  let run :=
    try_except
      (bind (write_videofile W c path "libx264" "aac")
            (fun _ => bind (close W c) (fun _ => ret path)))
      (fun e => raise (h e)) disk in
  snd run = <[path := VideoFile c "libx264" "aac"]> disk /\
  (encode_fails W c path "libx264" "aac" = None ->
   close_fails W c = None -> fst run = inr path).
Proof.
  unfold try_except, bind, write_videofile, close, check, ret, raise.
  destruct (encode_fails W c path "libx264" "aac") as [e|];
    [|destruct (close_fails W c) as [e|]];
    (split; [reflexivity|]); intros; (reflexivity || discriminate).
Qed.

Lemma save_clip_reaches_encoder (W : media_world) (video_path : string)
    (start_time end_time : Q) (output_path : string)
    (subtitles : list segment) (vertical : bool)
    (disk : gmap string video_file) (w h : Z) :
  video_file_clip W video_path = inr (w, h) ->
  subclip_fails W video_path start_time end_time = None ->
  (vertical = true -> h <> 0) ->
  (forall text width, text_clip_fails W text width = None) ->
  exists c : clip,
    snd (save_clip W video_path start_time end_time output_path subtitles
                   vertical disk)
    = <[output_path := VideoFile c "libx264" "aac"]> disk /\
    (encode_fails W c output_path "libx264" "aac" = None ->
     close_fails W c = None ->
     fst (save_clip W video_path start_time end_time output_path subtitles
                    vertical disk) = inr output_path).
Proof.
  intros Hopen Hsub Hh Htext.
  assert (Hvert : exists base,
             (if vertical then reframe_vertical (source_clip w h)
              else ret (source_clip w h)) disk = (inr base, disk)).
  { destruct vertical; [|eexists; reflexivity].
    apply reframe_vertical_returns. cbn. auto. }
  destruct Hvert as [base Hvert].
  assert (Hcap : exists final,
             match subtitles with
             | [] => ret base
             | _ :: _ =>
                 bind (subtitle_clips W base
                         (clip_subtitles subtitles start_time end_time))
                      (fun layers =>
                         ret (match layers with
                              | [] => base
                              | _ :: _ => composite base layers
                              end))
             end disk = (inr final, disk)).
  { destruct subtitles as [|seg rest]; [eexists; reflexivity|].
    destruct (subtitle_clips_returns W base
                (clip_subtitles (seg :: rest) start_time end_time) disk)
      as [layers Hl]; [intros; apply Htext|].
    unfold bind. rewrite Hl. eexists. reflexivity. }
  destruct Hcap as [final Hcap].
  exists final.
  pose proof (write_and_close W final output_path
                (fun e => "Error saving clip: " +:+ e) disk) as Hwrite.
  cbv zeta in Hwrite.
  unfold save_clip, open_video, subclip.
  unfold try_except, bind, call, check, ret in *.
  rewrite Hopen. cbv beta iota delta [fst snd]. rewrite Hsub.
  cbv beta iota. rewrite Hvert. cbv beta iota. rewrite Hcap.
  cbv beta iota. exact Hwrite.
Qed.

Lemma filter_clip_available (W : media_world) (c : clip)
    (filter_name : string) (disk : gmap string video_file) :
  (forall t, fx_fails W t = None) ->
  ~ In filter_name missing_filters ->
  exists out,
    (if String.eqb filter_name "grayscale" then apply_fx W c blackwhite
     else if String.eqb filter_name "bright" then apply_fx W c (colorx 1.5)
     else if String.eqb filter_name "dark" then apply_fx W c (colorx 0.7)
     else if String.eqb filter_name "contrast"
          then apply_fx W c (lum_contrast 1.5)
     else if String.eqb filter_name "sepia" then apply_fx W c sepia
     else if String.eqb filter_name "vignette" then apply_fx W c vignette
     else if String.eqb filter_name "blur" then apply_fx W c (gaussian_blur 1)
     else ret c) disk = (inr out, disk) /\
    geometry out = geometry c /\
    clip_layers out = clip_layers c /\
    (forall t, In (filter_name, t) filter_table -> clip_fx out = clip_fx c ++ [t]) /\
    (~ In filter_name (map fst filter_table) -> out = c).
Proof.
  intros Hfx Hnot. unfold apply_fx, bind, check, ret.
  repeat match goal with
         | |- context [String.eqb filter_name ?s] =>
             destruct (String.eqb_spec filter_name s) as [->|?]
         end;
    try (exfalso; apply Hnot; cbn; tauto);
    cbn; rewrite ?Hfx;
    (eexists; split; [reflexivity|]);
    (split; [reflexivity|]); (split; [reflexivity|]);
    (split;
     [intros t Hin; cbn;
      repeat (destruct Hin as [Hin|Hin]; [congruence|]); contradiction
     |intros Hout; try reflexivity; exfalso; apply Hout; cbn; tauto]).
Qed.

Lemma apply_filter_reaches_encoder (W : media_world)
    (input_path output_path filter_name : string)
    (disk : gmap string video_file) (w h : Z) :
  video_file_clip W input_path = inr (w, h) ->
  (forall t, fx_fails W t = None) ->
  ~ In filter_name missing_filters ->
  exists out : clip,
    snd (apply_filter W input_path output_path filter_name disk)
    = <[output_path := VideoFile out "libx264" "aac"]> disk /\
    (encode_fails W out output_path "libx264" "aac" = None ->
     close_fails W out = None ->
     fst (apply_filter W input_path output_path filter_name disk)
     = inr output_path) /\
    geometry out = geometry (source_clip w h) /\
    clip_layers out = [] /\
    (forall t, In (filter_name, t) filter_table -> clip_fx out = [t]) /\
    (~ In filter_name (map fst filter_table) -> out = source_clip w h).
Proof.
  intros Hopen Hfx Hnot.
  destruct (filter_clip_available W (source_clip w h) filter_name disk Hfx Hnot)
    as (out & Hrun & Hgeo & Hlayers & Hknown & Hother).
  exists out.
  pose proof (write_and_close W out output_path
                (fun e => "Error applying filter: " +:+ e) disk) as Hwrite.
  cbv zeta in Hwrite. destruct Hwrite as [Hw1 Hw2].
  assert (Hshape :
            apply_filter W input_path output_path filter_name disk
            = try_except
                (bind (write_videofile W out output_path "libx264" "aac")
                      (fun _ => bind (close W out) (fun _ => ret output_path)))
                (fun e => raise ("Error applying filter: " +:+ e)) disk).
  { unfold apply_filter, open_video.
    unfold try_except at 1 2. unfold bind at 1 2 3 6 7. unfold call, ret at 1.
    rewrite Hopen. cbv beta iota delta [fst snd]. rewrite Hrun. reflexivity. }
  rewrite Hshape. repeat split; auto.
Qed.

(** C8.  Every run of [save_clip] and of [apply_filter] either raises
    before it asks for any encoding, or asks for exactly one: the output
    path with video codec [libx264] and audio codec [aac], whatever the
    filter name and the vertical flag; a run that returns has asked for it.
    The request is made whenever the steps before it go through: for
    [save_clip], the source opens with a nonzero height when reframing, the
    sub-clip is cut and the captions are built; for [apply_filter], the
    source opens and the transform of the filter is there and applies. *)
Theorem C8_fixed_codec_pair (W : media_world) :
  (forall (video_path : string) (start_time end_time : Q)
          (output_path : string) (subtitles : list segment) (vertical : bool)
          (disk : gmap string video_file),
      let '(r, disk') :=
        save_clip W video_path start_time end_time output_path subtitles
                  vertical disk in
      (exists e, r = inl e /\ disk' = disk) \/
      (exists c, (r = inr output_path \/ exists e, r = inl e) /\
                 disk' = <[output_path := VideoFile c "libx264" "aac"]> disk)) /\
  (forall (input_path output_path filter_name : string)
          (disk : gmap string video_file),
      let '(r, disk') := apply_filter W input_path output_path filter_name disk in
      (exists e, r = inl e /\ disk' = disk) \/
      (exists c, (r = inr output_path \/ exists e, r = inl e) /\
                 disk' = <[output_path := VideoFile c "libx264" "aac"]> disk)) /\
  (forall (video_path : string) (start_time end_time : Q)
          (output_path : string) (subtitles : list segment) (vertical : bool)
          (disk : gmap string video_file) (w h : Z),
      video_file_clip W video_path = inr (w, h) ->
      subclip_fails W video_path start_time end_time = None ->
      (vertical = true -> h <> 0) ->
      (forall text width, text_clip_fails W text width = None) ->
      exists c : clip,
        snd (save_clip W video_path start_time end_time output_path subtitles
                       vertical disk)
        = <[output_path := VideoFile c "libx264" "aac"]> disk /\
        (encode_fails W c output_path "libx264" "aac" = None ->
         close_fails W c = None ->
         fst (save_clip W video_path start_time end_time output_path subtitles
                        vertical disk) = inr output_path)) /\
  (forall (input_path output_path filter_name : string)
          (disk : gmap string video_file) (w h : Z),
      video_file_clip W input_path = inr (w, h) ->
      (forall t, fx_fails W t = None) ->
      ~ In filter_name missing_filters ->
      exists c : clip,
        snd (apply_filter W input_path output_path filter_name disk)
        = <[output_path := VideoFile c "libx264" "aac"]> disk /\
        (encode_fails W c output_path "libx264" "aac" = None ->
         close_fails W c = None ->
         fst (apply_filter W input_path output_path filter_name disk)
         = inr output_path)).
Proof.
  split; [|split; [|split]].
  - intros video_path start_time end_time output_path subtitles vertical disk.
    destruct (save_clip W video_path start_time end_time output_path
                        subtitles vertical disk) as [r disk'] eqn:E.
    eapply writes_outcomes, save_clip_writes, E.
  - intros input_path output_path filter_name disk.
    destruct (apply_filter W input_path output_path filter_name disk)
      as [r disk'] eqn:E.
    eapply writes_outcomes, apply_filter_writes, E.
  - intros. eapply save_clip_reaches_encoder; eassumption.
  - intros input_path output_path filter_name disk w h Hopen Hfx Hnot.
    destruct (apply_filter_reaches_encoder W input_path output_path
                filter_name disk w h Hopen Hfx Hnot) as (c & H1 & H2 & _).
    eauto.
Qed.

(** C7.  The transforms module has no [sepia], [vignette] or
    [gaussian_blur]: for the filter names sepia, vignette and blur
    [apply_filter] always raises and asks for no encoding, and when the
    input opens the error is the failed attribute lookup.  For these three
    names of the enumerated set no transform is applied. *)
Theorem C7_missing_transforms_raise (W : media_world)
    (input_path output_path : string) (disk : gmap string video_file) :
  Forall
    (fun na =>
       exists e,
         apply_filter W input_path output_path (fst na) disk = (inl e, disk) /\
         (forall wh, video_file_clip W input_path = inr wh ->
                     e = "Error applying filter: " +:+
                         "module 'moviepy.video.fx.all' has no attribute '"
                         +:+ snd na +:+ "'"))
    [("sepia", "sepia"); ("vignette", "vignette"); ("blur", "gaussian_blur")] /\
  apply_filter demo_media "talk.mp4" "old.mp4" "sepia" ∅
  = (inl "Error applying filter: module 'moviepy.video.fx.all' has no attribute 'sepia'",
     ∅).
Proof.
  split; [|reflexivity].
  repeat constructor; cbn [fst snd];
    unfold apply_filter, open_video;
    unfold try_except, bind, call, ret, raise;
    (destruct (video_file_clip W input_path) as [e|wh];
     cbn; eexists; (split; [reflexivity|]); intros wh' [= <-] || intros wh' [=]);
    reflexivity.
Qed.

(** * Concrete runs *)

Lemma windows_25_seconds :
  map (fun w => (Qred (fst w), Qred (snd w))) (windows 25000)
  = [(0, 10); (10, 20); (20, 25)]%Q.
Proof. vm_compute. reflexivity. Qed.

(** On the sampled frame sizes the binary64 computation keeps the same
    rectangle as the exact one. *)
Lemma binary64_crop_agrees :
  forallb (fun wh => box_eqb (Binary64.crop_box (fst wh) (snd wh))
                             (view_box (reframed (fst wh) (snd wh))))
          sample_sizes = true.
Proof. vm_compute. reflexivity. Qed.

(** The re-timing example of the specification, evaluated in binary64. *)
Lemma binary64_retime_example :
  PrimFloat.eqb (Binary64.rel_start (Binary64.of_int 5) (Binary64.of_int 8))
                (Binary64.of_int 0)
  && PrimFloat.eqb (Binary64.rel_end (Binary64.of_int 12) (Binary64.of_int 8)
                                     (Binary64.of_int 20))
                   (Binary64.of_int 4) = true.
Proof. vm_compute. reflexivity. Qed.

Lemma C1_witness :
  exists out : clip,
    vf_clip <$> (snd (save_clip demo_media "talk.mp4" 8 20 "short.mp4"
                                demo_subtitles true ∅) !! "short.mp4")
    = Some out /\
    clip_w out = 607 /\ clip_h out = 1080 /\ view_x1 out = 656.
Proof.
  destruct (C1_vertical_center_crop demo_media "talk.mp4" 8 20 "short.mp4"
              demo_subtitles ∅
              (snd (save_clip demo_media "talk.mp4" 8 20 "short.mp4"
                              demo_subtitles true ∅))
              "short.mp4" 1920 1080)
    as (out & Hout & Hwide & _); [reflexivity|lia|lia|reflexivity|].
  exists out. split; [exact Hout|].
  destruct Hwide as (Hw & Hh & Hx & _); [reflexivity|lia|].
  rewrite Hx, Hw, Hh. repeat split.
Defined.

Lemma C9_witness :
  Forall (fun r => (0 <= fst (fst r))%Q /\
                   (fst (fst r) <= snd (fst r))%Q /\
                   (snd (fst r) <= 20 - 8)%Q)
         (clip_subtitles demo_subtitles 8 20).
Proof.
  apply (C9_caption_ranges_not_inverted demo_subtitles 8 20).
  - reflexivity.
  - repeat constructor; cbn; lra.
Defined.

Lemma C8_witness :
  exists c : clip,
    save_clip demo_media "talk.mp4" 8 20 "short.mp4" demo_subtitles true ∅
    = (inr "short.mp4", <["short.mp4" := VideoFile c "libx264" "aac"]> ∅).
Proof.
  destruct (C8_fixed_codec_pair demo_media) as (_ & _ & Hsave & _).
  destruct (Hsave "talk.mp4" 8%Q 20%Q "short.mp4" demo_subtitles true ∅
                  1920 1080)
    as (c & Hdisk & Hret); [reflexivity|reflexivity|lia|reflexivity|].
  exists c.
  rewrite (surjective_pairing (save_clip _ _ _ _ _ _ _ _)).
  rewrite Hdisk, Hret; reflexivity.
Defined.

Lemma C5_witness :
  exists st' : os_state,
    generate_subtitles demo_speech "talk.wav" empty_os
    = (inr [(chunk_start_time 0, chunk_end_time 25000 0, "hello");
            (chunk_start_time 20000, chunk_end_time 25000 20000, "hello")],
       st').
Proof.
  destruct (C5_recognition_failures_skipped demo_speech "talk.wav" empty_os)
    as (subtitles & st' & Hrun & Hspec).
  destruct (Hspec 25000) as (Hsubs & _); [reflexivity|reflexivity|].
  exists st'. rewrite Hrun, Hsubs. reflexivity.
Defined.


(** C6, at a run where reading back the first chunk file raises: the call
    returns the empty list and [temp_chunk_0.wav], which it created, is
    still on disk. *)
Theorem C6_chunk_file_left_behind :
  exists st' : os_state,
    generate_subtitles unreadable_chunk_speech "talk.wav" empty_os
    = (inr [], st') /\
    chunk_file 0 = "temp_chunk_0.wav" /\
    (chunk_file 0 ∉ files empty_os) /\
    (chunk_file 0 ∈ files st').
Proof.
  eexists. split; [reflexivity|]. split; [reflexivity|]. split.
  - apply not_elem_of_empty.
  - apply created_exists.
Qed.

(** * Further properties of the helpers *)

(** ** [download_youtube] *)

Lemma take_length (n : nat) (s : string) :
  String.length (PyStr.take n s) = Nat.min n (String.length s).
Proof.
  revert s. induction n as [|n IH]; intros [|c s]; cbn; try reflexivity.
  now rewrite IH.
Qed.

Lemma replace_length (old new : ascii) (s : string) :
  String.length (PyStr.replace old new s) = String.length s.
Proof. induction s as [|c s IH]; cbn; [reflexivity|now rewrite IH]. Qed.

Lemma replace_get (old new : ascii) (s : string) (i : nat) :
  String.get i (PyStr.replace old new s)
  = option_map (fun c => if Ascii.eqb c old then new else c) (String.get i s).
Proof.
  revert i. induction s as [|c s IH]; intros [|i]; cbn; try reflexivity.
  apply IH.
Qed.

Lemma take_get (n : nat) (s : string) (i : nat) :
  String.get i (PyStr.take n s)
  = if (i <? n)%nat then String.get i s else None.
Proof.
  revert s i. induction n as [|n IH]; intros s i.
  - destruct s, i; reflexivity.
  - destruct s as [|c s].
    + cbn [PyStr.take String.get]. now destruct (i <? S n)%nat.
    + destruct i as [|i]; [reflexivity|].
      cbn [PyStr.take String.get]. rewrite IH. reflexivity.
Qed.

(** The file name is [session_id], an underscore, the first thirty
    characters of the title with every space turned into an underscore and
    every other character kept, and [.mp4]. *)
Theorem download_filename_slug (session_id title : string) :
  exists slug : string,
    download_filename session_id title = session_id +:+ "_" +:+ slug +:+ ".mp4" /\
    String.length slug = Nat.min 30 (String.length title) /\
    forall (i : nat) (c : ascii),
      String.get i slug = Some c ->
      c <> " "%char /\
      exists c0, String.get i title = Some c0 /\
                 c = if Ascii.eqb c0 " " then "_"%char else c0.
Proof.
  exists (PyStr.take 30 (PyStr.replace " " "_" title)).
  split; [reflexivity|]. split.
  - now rewrite take_length, replace_length.
  - intros i c. rewrite take_get, replace_get.
    destruct (i <? 30)%nat; [|discriminate].
    destruct (String.get i title) as [c0|]; [|discriminate].
    cbn. intros [= <-]. split; [|eauto].
    destruct (Ascii.eqb_spec c0 " "); [discriminate|assumption].
Qed.

Lemma download_youtube_cases (W : tube_world)
    (url upload_folder session_id : string) (done : list download_request) :
  let '(r, done') := download_youtube W url upload_folder session_id done in
  (exists cause,
      r = inl ("Failed to download YouTube video: " +:+ cause) /\
      done' = done) \/
  (exists itag title,
      first_progressive_mp4 W url = inr (Some itag) /\
      video_title W url = inr title /\
      r = inr (PyStr.path_join upload_folder
                 (download_filename session_id title)) /\
      done' = done ++ [Download url itag upload_folder
                                (download_filename session_id title)]).
Proof.
  unfold download_youtube, stream_download, try_except, bind, check, call,
    raise, ret.
  destruct (youtube_fails W url) as [e|]; [left; eauto|].
  destruct (first_progressive_mp4 W url) as [e|video_stream]; [left; eauto|].
  destruct (video_title W url) as [e|title]; [left; eauto|].
  destruct video_stream as [itag|]; [|left; eauto].
  destruct (download_fails W url itag upload_folder
              (download_filename session_id title)) as [e|];
    [left; eauto|].
  right. exists itag, title. auto.
Qed.

(** Every run of [download_youtube] either raises one error, whose message
    is the cause prefixed by "Failed to download YouTube video: ", and
    downloads nothing; or downloads exactly one file, the chosen stream
    into [upload_folder] under the file name built from the title, and
    returns [os.path.join(upload_folder, filename)]. *)
Theorem download_youtube_outcome (W : tube_world)
    (url upload_folder session_id : string) (done : list download_request) :
  let '(r, done') := download_youtube W url upload_folder session_id done in
  (exists cause,
      r = inl ("Failed to download YouTube video: " +:+ cause) /\
      done' = done) \/
  (exists itag title,
      first_progressive_mp4 W url = inr (Some itag) /\
      video_title W url = inr title /\
      r = inr (PyStr.path_join upload_folder
                 (download_filename session_id title)) /\
      done' = done ++ [Download url itag upload_folder
                                (download_filename session_id title)]).
Proof. exact (download_youtube_cases W url upload_folder session_id done). Qed.

(** When no progressive mp4 stream exists, [download_youtube] raises and
    downloads nothing; the title is read before the download is attempted,
    so a failure to read the title is the one reported. *)
Theorem download_youtube_no_stream (W : tube_world)
    (url upload_folder session_id : string) (done : list download_request) :
  youtube_fails W url = None ->
  first_progressive_mp4 W url = inr None ->
  download_youtube W url upload_folder session_id done
  = (inl ("Failed to download YouTube video: " +:+
          match video_title W url with
          | inl e => e
          | inr _ => "'NoneType' object has no attribute 'download'"
          end),
     done).
Proof.
  intros Hyt Hstream.
  unfold download_youtube, stream_download, try_except, bind, check, call,
    raise, ret.
  rewrite Hyt, Hstream. now destruct (video_title W url).
Qed.

Lemma download_youtube_no_stream_witness :
  download_youtube no_stream_tube "https://youtu.be/x" "uploads" "s1" []
  = (inl ("Failed to download YouTube video: " +:+
          "'NoneType' object has no attribute 'download'"), []).
Proof.
  exact (download_youtube_no_stream no_stream_tube "https://youtu.be/x"
           "uploads" "s1" [] eq_refl eq_refl).
Defined.

Lemma download_filename_starts_with_sep (session_id title : string) :
  PyStr.starts_with_sep (download_filename session_id title)
  = PyStr.starts_with_sep session_id.
Proof. destruct session_id; reflexivity. Qed.

(** The path a successful [download_youtube] returns: the file name alone
    when [session_id] begins with a separator (the upload folder is then
    dropped) or the upload folder is empty; otherwise the upload folder
    followed by the file name, with a separator added unless the folder
    already ends with one. *)
Theorem download_youtube_path (W : tube_world)
    (url upload_folder session_id p : string)
    (done done' : list download_request) :
  download_youtube W url upload_folder session_id done = (inr p, done') ->
  exists title,
    video_title W url = inr title /\
    (PyStr.starts_with_sep session_id = true ->
     p = download_filename session_id title) /\
    (PyStr.starts_with_sep session_id = false ->
     (upload_folder = "" -> p = download_filename session_id title) /\
     (PyStr.ends_with_sep upload_folder = true ->
      p = upload_folder +:+ download_filename session_id title) /\
     (upload_folder <> "" -> PyStr.ends_with_sep upload_folder = false ->
      p = upload_folder +:+ "/" +:+ download_filename session_id title)).
Proof.
  intros Hrun.
  pose proof (download_youtube_cases W url upload_folder session_id done) as H.
  rewrite Hrun in H.
  destruct H as [(cause & [=] & _)|(itag & title & _ & Htitle & [= ->] & _)].
  exists title. split; [exact Htitle|].
  unfold PyStr.path_join. rewrite download_filename_starts_with_sep.
  split.
  - intros ->. reflexivity.
  - intros ->. split; [|split].
    + intros ->. reflexivity.
    + intros ->. now rewrite orb_true_r.
    + intros Hne ->.
      destruct (String.eqb_spec upload_folder ""); [contradiction|reflexivity].
Qed.

Lemma download_youtube_path_witness :
  fst (download_youtube demo_tube "https://youtu.be/x" "uploads" "s1" [])
  = inr "uploads/s1_My_first_video_about_cats_and_.mp4".
Proof.
  destruct (download_youtube_path demo_tube "https://youtu.be/x" "uploads" "s1"
              (PyStr.path_join "uploads"
                 (download_filename "s1" "My first video about cats and dogs"))
              []
              [Download "https://youtu.be/x" 22 "uploads"
                 (download_filename "s1" "My first video about cats and dogs")]
              eq_refl)
    as (title & Htitle & _ & Hrel).
  injection Htitle as <-.
  destruct (Hrel eq_refl) as (_ & _ & Hjoin).
  reflexivity.
Defined.

(** ** [generate_subtitles] *)

Lemma range_In (len_audio i : Z) :
  In i (Py.range 0 len_audio chunk_duration) ->
  0 <= i < len_audio /\ i mod 10000 = 0.
Proof.
  rewrite range_windows. intros H.
  apply in_map_iff in H as (j & <- & Hj). apply in_seq in Hj.
  assert (Z.of_nat j < (len_audio + 9999) / 10000) by lia.
  split; [|apply Z.mod_mul; lia].
  Z.div_mod_to_equations. lia.
Qed.

Lemma chunk_times_ok (len_audio i : Z) (text : string) :
  0 <= i < len_audio ->
  segment_ok len_audio (chunk_start_time i, chunk_end_time len_audio i, text).
Proof.
  intros Hi. unfold segment_ok. cbn [fst snd].
  assert (Hs : (0 <= chunk_start_time i)%Q).
  { unfold chunk_start_time, Qle, Qdiv, Qmult, Qinv, inject_Z. simpl. lia. }
  assert (Hd : (chunk_start_time i < inject_Z len_audio / 1000)%Q).
  { unfold chunk_start_time. apply Qlt_thousandths. lia. }
  rewrite chunk_end_time_min.
  destruct (Q.min_spec (chunk_start_time i + 10) (inject_Z len_audio / 1000))
    as [[Hlt ->]|[Hle ->]]; repeat split; lra.
Qed.

(** Every segment [generate_subtitles] returns starts at or after zero, is
    not empty, lasts at most ten seconds and ends within the audio. *)
Theorem generate_subtitles_segments_ok (W : speech_world) (audio_path : string)
    (len_audio : Z) (st st' : os_state) (subtitles : list segment) :
  from_wav W audio_path = inr len_audio ->
  generate_subtitles W audio_path st = (inr subtitles, st') ->
  Forall (segment_ok len_audio) subtitles.
Proof.
  intros Hlen Hrun.
  destruct (generate_subtitles_returns W audio_path st) as [st1 Hret].
  rewrite Hret in Hrun. injection Hrun as <- _.
  unfold transcript. rewrite Hlen.
  destruct (healthy W audio_path); [|constructor].
  apply List.Forall_forall. intros seg Hseg.
  apply recognized_In in Hseg as (i & text & Hi & _ & ->).
  apply chunk_times_ok. now apply range_In in Hi.
Qed.

Lemma generate_subtitles_segments_ok_witness :
  Forall (segment_ok 25000)
         [(chunk_start_time 0, chunk_end_time 25000 0, "hello");
          (chunk_start_time 20000, chunk_end_time 25000 20000, "hello")].
Proof.
  apply (generate_subtitles_segments_ok demo_speech "talk.wav" 25000 empty_os
           (snd (generate_subtitles demo_speech "talk.wav" empty_os)));
    reflexivity.
Defined.

Lemma multiples_spaced (n a : nat) :
  StronglySorted (fun i j => i + chunk_duration <= j)
                 (map (fun j => Z.of_nat j * 10000) (seq a n)).
Proof.
  revert a. induction n as [|n IH]; intros a; cbn; constructor.
  - apply IH.
  - apply List.Forall_forall. intros x Hx.
    apply in_map_iff in Hx as (j & <- & Hj). apply in_seq in Hj.
    unfold chunk_duration. lia.
Qed.

Lemma chunk_end_before_next (len_audio i j : Z) :
  i + chunk_duration <= j ->
  (chunk_end_time len_audio i <= chunk_start_time j)%Q.
Proof.
  intros Hij. rewrite chunk_end_time_min.
  apply Qle_trans with (chunk_start_time i + 10)%Q; [apply Q.le_min_l|].
  revert Hij.
  unfold chunk_start_time, chunk_duration, Qle, Qplus, Qdiv, Qmult, Qinv,
    inject_Z. simpl. lia.
Qed.

Lemma recognized_separate (W : speech_world) (len_audio : Z) (offsets : list Z) :
  StronglySorted (fun i j => i + chunk_duration <= j) offsets ->
  StronglySorted ends_before (flat_map (recognized W len_audio) offsets).
Proof.
  induction 1 as [|i offsets Hsorted IH Hall]; cbn [flat_map]; [constructor|].
  unfold recognized at 1.
  destruct (recognize_google W i) as [e|text]; [exact IH|].
  cbn [app]. constructor; [exact IH|].
  apply List.Forall_forall. intros seg Hseg.
  apply recognized_In in Hseg as (j & text' & Hj & _ & ->).
  rewrite List.Forall_forall in Hall. specialize (Hall _ Hj).
  unfold ends_before. cbn [fst snd]. now apply chunk_end_before_next.
Qed.

Lemma transcript_separate (W : speech_world) (audio_path : string) :
  StronglySorted ends_before (transcript W audio_path).
Proof.
  unfold transcript.
  destruct (from_wav W audio_path) as [e|len_audio]; [constructor|].
  destruct (healthy W audio_path); [|constructor].
  apply recognized_separate. rewrite range_windows. apply multiples_spaced.
Qed.


(** *** Files and output *)

Lemma string_app_length (s t : string) :
  String.length (s +:+ t) = (String.length s + String.length t)%nat.
Proof.
  induction s as [|c s IH]; [reflexivity|].
  change (S (String.length (s +:+ t))
          = S (String.length s + String.length t)).
  now rewrite IH.
Qed.

Lemma string_app_inv_tail (t : string) :
  forall s1 s2 : string, s1 +:+ t = s2 +:+ t -> s1 = s2.
Proof.
  induction s1 as [|a s1 IH]; intros [|b s2] H.
  - reflexivity.
  - apply (f_equal String.length) in H.
    change (String.length t = S (String.length (s2 +:+ t))) in H.
    rewrite string_app_length in H. lia.
  - apply (f_equal String.length) in H.
    change (S (String.length (s1 +:+ t)) = String.length t) in H.
    rewrite string_app_length in H. lia.
  - change (String a (s1 +:+ t) = String b (s2 +:+ t)) in H.
    injection H as -> H. f_equal. now apply IH.
Qed.

(** Different windows use different chunk files. *)
Theorem chunk_file_injective (i j : Z) :
  chunk_file i = chunk_file j -> i = j.
Proof.
  unfold chunk_file. intros H.
  apply String.app_inj in H. apply string_app_inv_tail in H.
  now apply (inj pretty) in H.
Qed.

Lemma chunk_file_injective_witness : 10000 = 10000.
Proof. exact (chunk_file_injective 10000 10000 eq_refl). Defined.

Ltac files_solver :=
  split; [reflexivity|];
  split; [intros ? ?|apply elem_of_subseteq; intros ?];
  rewrite ?elem_of_difference, ?elem_of_union, ?elem_of_singleton; tauto.

(** Processing one window changes no file but its chunk file, prints
    nothing, and when it raises it leaves at most the chunk file behind. *)
Lemma transcribe_chunk_effect (W : speech_world) (len_audio i : Z)
    (subtitles : list segment) (s s' : os_state)
    (r : exn + list segment) :
  transcribe_chunk W len_audio i subtitles s = (r, s') ->
  stdout s' = stdout s /\
  (forall name, name <> chunk_file i ->
                (name ∈ files s' <-> name ∈ files s)) /\
  files s' ⊆ files s ∪ {[chunk_file i]}.
Proof.
  unfold transcribe_chunk, bind, export, check, try_except, call, os_remove, ret.
  destruct (export_fails W i) as [[e partial]|].
  { intros [= <- <-]. destruct partial; cbn [files stdout]; files_solver. }
  destruct (audio_file_fails W i) as [e|].
  { intros [= <- <-]. cbn [files stdout]. files_solver. }
  destruct (record_fails W i) as [e|].
  { intros [= <- <-]. cbn [files stdout]. files_solver. }
  destruct (recognize_google W i); cbn [files stdout];
    (destruct (decide _) as [_|Hnot]; [|destruct Hnot; apply created_exists]);
    destruct (remove_fails W i);
    intros [= <- <-]; cbn [files stdout]; files_solver.
Qed.

Lemma for_each_effect (W : speech_world) (len_audio : Z) :
  forall (offsets : list Z) (acc : list segment) (s s' : os_state)
         (r : exn + list segment),
    for_each offsets (transcribe_chunk W len_audio) acc s = (r, s') ->
    stdout s' = stdout s /\
    (forall name, (forall i, In i offsets -> name <> chunk_file i) ->
                  (name ∈ files s' <-> name ∈ files s)).
Proof.
  induction offsets as [|i offsets IH]; intros acc s s' r H.
  - injection H as <- <-. split; [reflexivity|tauto].
  - cbn [for_each] in H. unfold bind in H.
    destruct (transcribe_chunk W len_audio i acc s) as [[e|acc'] s1] eqn:E;
      apply transcribe_chunk_effect in E as (Hout & Hframe & _).
    + injection H as <- <-. split; [exact Hout|].
      intros name Hname. apply Hframe, Hname. now left.
    + apply IH in H as (Hout' & Hframe'). split; [congruence|].
      intros name Hname. rewrite Hframe'.
      * apply Hframe, Hname. now left.
      * intros j Hj. apply Hname. now right.
Qed.

(** Whatever happens, [generate_subtitles] neither creates nor removes a
    file whose name is not that of a chunk file. *)
Theorem generate_subtitles_other_files (W : speech_world) (audio_path : string)
    (st st' : os_state) (r : exn + list segment) (name : string) :
  generate_subtitles W audio_path st = (r, st') ->
  (forall i, name <> chunk_file i) ->
  (name ∈ files st' <-> name ∈ files st).
Proof.
  unfold generate_subtitles, try_except, bind, check, call, print, ret.
  intros Hrun Hname.
  destruct (recognizer_fails W) as [e|]; [now injection Hrun as <- <-|].
  destruct (from_wav W audio_path) as [e|len_audio];
    [now injection Hrun as <- <-|].
  destruct (for_each _ _ _ st) as [[e|subs] s1] eqn:E;
    apply for_each_effect in E as (_ & Hframe);
    injection Hrun as <- <-; cbn [files]; apply Hframe; auto.
Qed.

Lemma generate_subtitles_other_files_witness :
  "notes.txt" ∈ files (snd (generate_subtitles demo_speech "talk.wav"
                                               cluttered_os)).
Proof.
  apply (generate_subtitles_other_files demo_speech "talk.wav" cluttered_os
           (snd (generate_subtitles demo_speech "talk.wav" cluttered_os))
           (fst (generate_subtitles demo_speech "talk.wav" cluttered_os))
           "notes.txt").
  - apply surjective_pairing.
  - intros i. discriminate.
  - apply elem_of_union_r, elem_of_singleton. reflexivity.
Defined.

(** When no library call other than recognitions raises,
    [generate_subtitles] prints nothing and afterwards no chunk file of any
    window exists, not even one that was there before the call. *)
Theorem generate_subtitles_healthy_cleanup (W : speech_world)
    (audio_path : string) (len_audio : Z) (st : os_state) :
  healthy W audio_path = true ->
  from_wav W audio_path = inr len_audio ->
  exists (subtitles : list segment) (st' : os_state),
    generate_subtitles W audio_path st = (inr subtitles, st') /\
    stdout st' = stdout st /\
    forall i, In i (Py.range 0 len_audio chunk_duration) ->
              chunk_file i ∉ files st'.
Proof.
  intros Hh Hlen.
  rewrite (generate_subtitles_healthy W audio_path len_audio st Hh Hlen).
  eexists _, _. split; [reflexivity|]. split; [reflexivity|].
  intros i Hi. cbn [files].
  rewrite elem_of_difference, elem_of_list_to_set.
  intros [_ Hnot]. apply Hnot.
  apply list_elem_of_In, in_map, Hi.
Qed.

Lemma generate_subtitles_healthy_cleanup_witness :
  "temp_chunk_0.wav" ∈ files cluttered_os /\
  "temp_chunk_0.wav" ∉ files (snd (generate_subtitles demo_speech "talk.wav"
                                                      cluttered_os)).
Proof.
  split; [apply elem_of_union_l, elem_of_singleton; reflexivity|].
  destruct (generate_subtitles_healthy_cleanup demo_speech "talk.wav" 25000
              cluttered_os eq_refl eq_refl)
    as (subtitles & st' & Hrun & _ & Hgone).
  rewrite Hrun. apply (Hgone 0). vm_compute. tauto.
Defined.





(** An audio of length zero is transcribed to the empty list without
    creating a file or printing anything. *)
Theorem generate_subtitles_empty_audio (W : speech_world)
    (audio_path : string) (len_audio : Z) (st : os_state) :
  recognizer_fails W = None ->
  from_wav W audio_path = inr len_audio ->
  len_audio <= 0 ->
  generate_subtitles W audio_path st = (inr [], st).
Proof.
  intros Hrec Hlen Hzero.
  unfold generate_subtitles, try_except, bind, check, call.
  rewrite Hrec, Hlen. unfold Py.range.
  replace (Z.to_nat (len_audio - 0)) with 0%nat by lia. reflexivity.
Qed.

Lemma generate_subtitles_empty_audio_witness :
  generate_subtitles
    (SpeechWorld None (fun _ => inr 0) (fun _ => None) (fun _ => None)
                 (fun _ => None) (fun _ => inr "hello") (fun _ => None))
    "silence.wav" cluttered_os
  = (inr [], cluttered_os).
Proof.
  apply (generate_subtitles_empty_audio _ "silence.wav" 0 cluttered_os);
    [reflexivity|reflexivity|lia].
Defined.

(** ** [save_clip]: reframing twice *)

(** The view box of a clip has the size of its frame. *)
Lemma crop_view_consistent (c : clip) (x1 y1 x2 y2 : Z) :
  view_x2 (crop c x1 y1 x2 y2)
  = view_x1 (crop c x1 y1 x2 y2) + clip_w (crop c x1 y1 x2 y2) /\
  view_y2 (crop c x1 y1 x2 y2)
  = view_y1 (crop c x1 y1 x2 y2) + clip_h (crop c x1 y1 x2 y2).
Proof. unfold crop. cbn. lia. Qed.

Lemma reframe_vertical_size {S} (c : clip) (s : S) :
  0 < clip_w c -> 0 < clip_h c ->
  exists c' : clip,
    reframe_vertical c s = (inr c', s) /\
    (clip_w c', clip_h c') = reframed_size (clip_w c) (clip_h c) /\
    (16 * clip_w c = 9 * clip_h c -> c' = c) /\
    (clip_w c = 1 -> clip_h c = 1 ->
     view_x2 c = view_x1 c + 1 -> view_y2 c = view_y1 c + 1 -> c' = c) /\
    (c' = c \/
     (view_x2 c' = view_x1 c' + clip_w c' /\
      view_y2 c' = view_y1 c' + clip_h c')).
Proof.
  intros Hw Hh. unfold reframe_vertical, reframed_size.
  destruct (clip_h c =? 0) eqn:E0; [apply Z.eqb_eq in E0; lia|].
  rewrite aspect_wide, aspect_tall by assumption.
  destruct (9 * clip_h c <? 16 * clip_w c) eqn:Ewide.
  - apply Z.ltb_lt in Ewide. rewrite new_width_value by lia.
    assert (0 <= 9 * clip_h c / 16) by (apply Z.div_pos; lia).
    assert (9 * clip_h c / 16 < clip_w c) by (apply Z.div_lt_upper_bound; lia).
    assert (0 <= (clip_w c - 9 * clip_h c / 16) / 2) by (apply Z.div_pos; lia).
    assert (2 * ((clip_w c - 9 * clip_h c / 16) / 2) <= clip_w c - 9 * clip_h c / 16)
      by (apply Z.mul_div_le; lia).
    unfold ret. eexists. split; [reflexivity|].
    split; [|split; [lia|split; [|right; apply crop_view_consistent]]].
    + destruct ((clip_w c - 9 * clip_h c / 16) / 2 + 9 * clip_h c / 16 =? 0)
        eqn:Ezero.
      * apply Z.eqb_eq in Ezero.
        assert (E1 : (clip_w c - 9 * clip_h c / 16) / 2 = 0) by lia.
        rewrite Ezero, E1. rewrite crop_zero_right by lia. reflexivity.
      * apply Z.eqb_neq in Ezero. rewrite crop_inside by lia.
        cbn [clip_w clip_h]. f_equal; lia.
    + intros E1 E2 Ex Ey.
      assert (Eb : 9 * clip_h c / 16 = 0) by (rewrite E2; reflexivity).
      assert (Ea : (clip_w c - 9 * clip_h c / 16) / 2 = 0)
        by (rewrite E1, E2; reflexivity).
      rewrite Ea, Eb, Z.add_0_l. rewrite crop_zero_right by lia.
      destruct c as [w h x1 y1 x2 y2 f l]. cbn in *. f_equal; lia.
  - destruct (16 * clip_w c <? 9 * clip_h c) eqn:Etall.
    + apply Z.ltb_lt in Etall. rewrite new_height_value by lia.
      assert (0 <= 16 * clip_w c / 9) by (apply Z.div_pos; lia).
      assert (16 * clip_w c / 9 < clip_h c) by (apply Z.div_lt_upper_bound; lia).
      assert (0 <= (clip_h c - 16 * clip_w c / 9) / 2) by (apply Z.div_pos; lia).
      assert (2 * ((clip_h c - 16 * clip_w c / 9) / 2) <= clip_h c - 16 * clip_w c / 9)
        by (apply Z.mul_div_le; lia).
      assert (1 <= 16 * clip_w c / 9) by (apply Z.div_le_lower_bound; lia).
      unfold ret. eexists. split; [reflexivity|].
      split; [|split; [lia|split; [lia|right; apply crop_view_consistent]]].
      rewrite crop_inside by lia. cbn [clip_w clip_h]. f_equal; lia.
    + exists c. apply Z.ltb_ge in Ewide, Etall.
      repeat split; auto.
Qed.

Ltac size_cases :=
  repeat match goal with
         | |- context [if ?a <? ?b then _ else _] => destruct (Z.ltb_spec a b)
         | |- context [if ?a =? ?b then _ else _] => destruct (Z.eqb_spec a b)
         end.

(** The arithmetic of two successive reframings. *)
Lemma reframed_size_twice (w h w1 h1 w2 h2 : Z) :
  0 < w -> 2 <= h ->
  reframed_size w h = (w1, h1) -> reframed_size w1 h1 = (w2, h2) ->
  0 < w1 /\ 0 < h1 /\
  (w2 = w1 /\ h2 = h1 <-> 16 * w1 = 9 * h1 \/ (w1 = 1 /\ h1 = 1)) /\
  (w1 = 1 -> h1 = 1 -> h1 < h) /\
  (16 * w1 = 9 * h1 <->
   (9 * h < 16 * w -> h mod 16 = 0) /\ (16 * w < 9 * h -> w mod 9 = 0)) /\
  w2 <= w1 <= w /\ h2 <= h1 <= h.
Proof.
  intros Hw Hh. unfold reframed_size.
  size_cases; intros [= <- <-] [= <- <-];
    (repeat split; intros; Z.div_mod_to_equations; lia).
Qed.

Lemma reframed_size_positive (w h : Z) :
  0 < w -> 2 <= h ->
  0 < fst (reframed_size w h) /\ 0 < snd (reframed_size w h).
Proof.
  intros Hw Hh. unfold reframed_size.
  size_cases; cbn [fst snd]; split; Z.div_mod_to_equations; lia.
Qed.

(** Reframing the result of a reframing leaves it alone exactly when the
    first result is exactly 9:16 or is a single pixel.  It is exactly 9:16
    when the dimension the first pass kept divides evenly: the height by 16
    for a source that was too wide, the width by 9 for one that was too
    tall.  It is a single pixel for the sources one pixel wide.  Otherwise
    the second pass crops the other axis. *)
Theorem reframe_vertical_twice {S} (c : clip) (s : S) :
  0 < clip_w c -> 2 <= clip_h c ->
  exists c1 c2 : clip,
    reframe_vertical c s = (inr c1, s) /\
    reframe_vertical c1 s = (inr c2, s) /\
    (c2 = c1 <->
     16 * clip_w c1 = 9 * clip_h c1 \/ (clip_w c1 = 1 /\ clip_h c1 = 1)) /\
    (16 * clip_w c1 = 9 * clip_h c1 <->
     (9 * clip_h c < 16 * clip_w c -> clip_h c mod 16 = 0) /\
     (16 * clip_w c < 9 * clip_h c -> clip_w c mod 9 = 0)) /\
    (clip_w c1 = 1 /\ clip_h c1 = 1 <-> clip_w c = 1) /\
    clip_w c2 <= clip_w c1 <= clip_w c /\
    clip_h c2 <= clip_h c1 <= clip_h c.
Proof.
  intros Hw Hh.
  destruct (reframe_vertical_size c s) as (c1 & Hrun1 & Hsize1 & _ & _ & Hview);
    [lia|lia|].
  pose proof (reframed_size_positive (clip_w c) (clip_h c) Hw Hh) as Hpos.
  rewrite <- Hsize1 in Hpos. cbn [fst snd] in Hpos.
  destruct (reframe_vertical_size c1 s)
    as (c2 & Hrun2 & Hsize2 & Hsame & Hone & _); [tauto|tauto|].
  exists c1, c2. split; [exact Hrun1|]. split; [exact Hrun2|].
  symmetry in Hsize1, Hsize2.
  destruct (reframed_size_twice _ _ _ _ _ _ Hw Hh Hsize1 Hsize2)
    as (_ & _ & Hfix & Hlt & Hexact & Hws & Hhs).
  assert (Hpixel : clip_w c1 = 1 /\ clip_h c1 = 1 <-> clip_w c = 1).
  { revert Hsize1. unfold reframed_size.
    size_cases; intros [= <- <-]; split; intros; Z.div_mod_to_equations; lia. }
  split; [|split; [exact Hexact|split; [exact Hpixel|split; assumption]]].
  split.
  - intros ->. apply Hfix. auto.
  - intros [Hratio|[H1 H2]]; [auto|].
    apply Hone; try assumption.
    + destruct Hview as [->|[Hx _]]; [specialize (Hlt H1 H2); lia|lia].
    + destruct Hview as [->|[_ Hy]]; [specialize (Hlt H1 H2); lia|lia].
Qed.

Lemma reframe_vertical_twice_witness :
  exists c1 c2 : clip,
    reframe_vertical (source_clip 1920 1080) tt = (inr c1, tt) /\
    reframe_vertical c1 tt = (inr c2, tt) /\
    c2 <> c1.
Proof.
  destruct (@reframe_vertical_twice unit (source_clip 1920 1080) tt)
    as (c1 & c2 & Hrun1 & Hrun2 & Hsame & Hexact & Hpixel & _);
    [cbn; lia|cbn; lia|].
  exists c1, c2. split; [exact Hrun1|]. split; [exact Hrun2|].
  intros Heq. apply Hsame in Heq. destruct Heq as [Heq|Heq].
  - apply Hexact in Heq. destruct Heq as [Hwide _].
    cbn in Hwide. specialize (Hwide eq_refl). discriminate Hwide.
  - apply Hpixel in Heq. cbn in Heq. discriminate Heq.
Defined.

(** ** [save_clip]: what is written *)

Lemma subtitle_clips_captions (W : media_world) (c : clip) :
  forall (subs : list segment) (layers : list text_clip)
         (s s' : gmap string video_file),
    subtitle_clips W c subs s = (inr layers, s') ->
    layers = map (caption_of (clip_w c)) subs.
Proof.
  induction subs as [|[[st et] text] rest IH]; intros layers s s' H.
  - now apply ret_inr in H as [-> _].
  - cbn [subtitle_clips] in H.
    apply bind_inr in H as (u & s1 & _ & H).
    apply bind_inr in H as (tail & s2 & Htail & H).
    apply ret_inr in H as [-> _]. apply IH in Htail as ->. reflexivity.
Qed.

Lemma composite_width (c : clip) (layers : list text_clip) :
  clip_w (composite c layers) = clip_w c.
Proof. reflexivity. Qed.

(** The clip a successful [save_clip] wrote, layer by layer. *)
Lemma save_clip_written (W : media_world) (video_path : string)
    (start_time end_time : Q) (output_path : string)
    (subtitles : list segment) (vertical : bool)
    (disk disk' : gmap string video_file) (p : string) :
  save_clip W video_path start_time end_time output_path subtitles vertical disk
  = (inr p, disk') ->
  exists (w h : Z) (final : clip),
    video_file_clip W video_path = inr (w, h) /\
    disk' = <[output_path := VideoFile final "libx264" "aac"]> disk /\
    clip_fx final = [] /\
    clip_layers final
    = map (caption_of (clip_w final))
          (clip_subtitles subtitles start_time end_time) /\
    (vertical = false -> geometry final = geometry (source_clip w h)).
Proof.
  intros H. unfold save_clip in H. apply try_except_raise_inr in H.
  apply bind_inr in H as (c0 & s0 & Hopen & H).
  apply bind_inr in H as (c1 & s1 & Hsub & H).
  apply bind_inr in H as (base & s2 & Hvert & H).
  apply bind_inr in H as (final & s3 & Hcap & H).
  apply bind_inr in H as (u & s4 & Hwrite & H).
  apply bind_inr in H as (u' & s6 & Hclose & H).
  apply open_video_inr in Hopen as (w & h & Hopen & -> & ->).
  apply subclip_inr in Hsub as [-> ->].
  apply ret_inr in H as [-> ->].
  apply check_inr in Hclose as [_ ->].
  apply write_videofile_inr in Hwrite as ->.
  exists w, h, final.
  assert (Hbase : s2 = disk /\ clip_fx base = [] /\ clip_layers base = [] /\
                  (vertical = false -> base = source_clip w h)).
  { destruct vertical.
    - pose proof (reframe_vertical_frame _ _ _ _ Hvert) as (-> & Hfx & Hl).
      repeat split; auto. discriminate.
    - apply ret_inr in Hvert as [-> ->]. auto. }
  destruct Hbase as (-> & Hfx & Hlayers & Hbase).
  assert (Hfinal : s3 = disk /\ clip_fx final = [] /\
                   clip_layers final
                   = map (caption_of (clip_w final))
                         (clip_subtitles subtitles start_time end_time) /\
                   geometry final = geometry base).
  { destruct subtitles as [|seg rest].
    - apply ret_inr in Hcap as [-> ->]. rewrite Hlayers. cbn. auto.
    - apply bind_inr in Hcap as (layers & s5 & Hlay & Hcap).
      pose proof (subtitle_clips_captions _ _ _ _ _ _ Hlay) as Hexact.
      apply subtitle_clips_segments in Hlay as (-> & _ & _).
      apply ret_inr in Hcap as [-> ->].
      destruct layers as [|t layers].
      + rewrite Hlayers, <- Hexact. auto.
      + rewrite composite_width. unfold composite at 1 2 3.
        cbn [clip_layers clip_fx geometry clip_w clip_h
                         view_x1 view_x2 view_y1 view_y2].
        rewrite Hlayers, <- Hexact. auto. }
  destruct Hfinal as (-> & Hfx' & Hcaps & Hgeo).
  split; [exact Hopen|]. split; [reflexivity|].
  split; [exact Hfx'|]. split; [exact Hcaps|].
  intros Hv. rewrite Hgeo, (Hbase Hv). reflexivity.
Qed.

(** A successful [save_clip] writes one caption per subtitle overlapping
    the clip, in the order of the subtitles: the subtitle's text, its
    re-timed start and end, the width of the clip written, font size 24,
    white on black, Arial, at the bottom centre.  It applies no visual
    transform. *)
Theorem save_clip_captions (W : media_world) (video_path : string)
    (start_time end_time : Q) (output_path : string)
    (subtitles : list segment) (vertical : bool)
    (disk disk' : gmap string video_file) (p : string) :
  save_clip W video_path start_time end_time output_path subtitles vertical disk
  = (inr p, disk') ->
  exists vf : video_file,
    disk' !! output_path = Some vf /\
    clip_fx (vf_clip vf) = [] /\
    clip_layers (vf_clip vf)
    = map (caption_of (clip_w (vf_clip vf)))
          (clip_subtitles subtitles start_time end_time).
Proof.
  intros Hrun.
  apply save_clip_written in Hrun as (w & h & final & _ & -> & Hfx & Hcaps & _).
  exists (VideoFile final "libx264" "aac").
  split; [apply lookup_insert_eq|]. auto.
Qed.

Lemma save_clip_captions_witness :
  exists vf : video_file,
    snd (save_clip demo_media "talk.mp4" 8 20 "short.mp4" demo_subtitles true ∅)
      !! "short.mp4" = Some vf /\
    clip_layers (vf_clip vf)
    = [caption_of 607 (0, 4, "hi")%Q; caption_of 607 (7, 12, "bye")%Q].
Proof.
  destruct (save_clip_captions demo_media "talk.mp4" 8 20 "short.mp4"
              demo_subtitles true ∅
              (snd (save_clip demo_media "talk.mp4" 8 20 "short.mp4"
                              demo_subtitles true ∅))
              "short.mp4" eq_refl)
    as (vf & Hvf & _ & Hcaps).
  exists vf. split; [exact Hvf|].
  rewrite Hcaps. injection Hvf as <-. reflexivity.
Defined.

(** With [vertical=False] the clip [save_clip] writes shows the whole
    source frame, at the source's size. *)
Theorem save_clip_horizontal_keeps_frame (W : media_world)
    (video_path : string) (start_time end_time : Q) (output_path : string)
    (subtitles : list segment)
    (disk disk' : gmap string video_file) (p : string) :
  save_clip W video_path start_time end_time output_path subtitles false disk
  = (inr p, disk') ->
  exists (w h : Z) (vf : video_file),
    video_file_clip W video_path = inr (w, h) /\
    disk' !! output_path = Some vf /\
    geometry (vf_clip vf) = (w, h, (0, 0, w, h)).
Proof.
  intros Hrun.
  apply save_clip_written in Hrun as (w & h & final & Hopen & -> & _ & _ & Hgeo).
  exists w, h, (VideoFile final "libx264" "aac").
  split; [exact Hopen|]. split; [apply lookup_insert_eq|].
  exact (Hgeo eq_refl).
Qed.

Lemma save_clip_horizontal_keeps_frame_witness :
  exists vf : video_file,
    snd (save_clip demo_media "talk.mp4" 8 20 "wide.mp4" demo_subtitles false ∅)
      !! "wide.mp4" = Some vf /\
    geometry (vf_clip vf) = (1920, 1080, (0, 0, 1920, 1080)).
Proof.
  destruct (save_clip_horizontal_keeps_frame demo_media "talk.mp4" 8 20
              "wide.mp4" demo_subtitles ∅
              (snd (save_clip demo_media "talk.mp4" 8 20 "wide.mp4"
                              demo_subtitles false ∅))
              "wide.mp4" eq_refl)
    as (w & h & vf & Hopen & Hvf & Hgeo).
  injection Hopen as <- <-. eauto.
Defined.

(** ** Errors of [save_clip] and [apply_filter] *)

Lemma encoded_inl (W : media_world) (c : clip) (path : string)
    (prefix e : string) :
  encoded W c path (fun cause => prefix +:+ cause) = inl e ->
  exists cause,
    e = prefix +:+ cause /\
    (encode_fails W c path "libx264" "aac" = Some cause \/
     encode_fails W c path "libx264" "aac" = None /\
     close_fails W c = Some cause).
Proof.
  unfold encoded.
  destruct (encode_fails W c path "libx264" "aac") as [e1|];
    [|destruct (close_fails W c) as [e2|]]; intros [= <-]; eauto.
Qed.

(** Whatever fails inside [save_clip] or [apply_filter], the caller gets
    one error whose message is the cause prefixed by "Error saving clip: "
    or "Error applying filter: ".  Either no encoding has been asked for,
    or the encoding of the output has, and the cause is what the encoder
    raised or, if the encoder returned, what [close] raised.  A source that
    cannot be opened is reported with the opener's own message as cause,
    and no encoding is asked for. *)
Theorem rendering_errors_wrapped (W : media_world) :
  (forall (video_path : string) (start_time end_time : Q)
          (output_path : string) (subtitles : list segment) (vertical : bool)
          (disk disk' : gmap string video_file) (e : exn),
      save_clip W video_path start_time end_time output_path subtitles
                vertical disk = (inl e, disk') ->
      (exists cause,
          e = "Error saving clip: " +:+ cause /\
          (disk' = disk \/
           exists c,
             disk' = <[output_path := VideoFile c "libx264" "aac"]> disk /\
             (encode_fails W c output_path "libx264" "aac" = Some cause \/
              encode_fails W c output_path "libx264" "aac" = None /\
              close_fails W c = Some cause))) /\
      forall e0, video_file_clip W video_path = inl e0 ->
                 e = "Error saving clip: " +:+ e0 /\ disk' = disk) /\
  (forall (input_path output_path filter_name : string)
          (disk disk' : gmap string video_file) (e : exn),
      apply_filter W input_path output_path filter_name disk = (inl e, disk') ->
      (exists cause,
          e = "Error applying filter: " +:+ cause /\
          (disk' = disk \/
           exists c,
             disk' = <[output_path := VideoFile c "libx264" "aac"]> disk /\
             (encode_fails W c output_path "libx264" "aac" = Some cause \/
              encode_fails W c output_path "libx264" "aac" = None /\
              close_fails W c = Some cause))) /\
      forall e0, video_file_clip W input_path = inl e0 ->
                 e = "Error applying filter: " +:+ e0 /\ disk' = disk).
Proof.
  split.
  - intros video_path start_time end_time output_path subtitles vertical
      disk disk' e Hrun. split.
    + destruct (save_clip_writes W _ _ _ _ _ _ _ _ _ Hrun)
        as [(e' & [= ->] & ->)|(c & He & ->)]; [eauto|].
      symmetry in He. apply encoded_inl in He as (cause & -> & Hcause).
      exists cause. split; [reflexivity|]. right. eauto.
    + intros e0 He0. revert Hrun.
      unfold save_clip, open_video.
      unfold try_except, bind at 1 2, call, raise. rewrite He0.
      now intros [= <- <-].
  - intros input_path output_path filter_name disk disk' e Hrun. split.
    + destruct (apply_filter_writes W _ _ _ _ _ _ Hrun)
        as [(e' & [= ->] & ->)|(c & He & ->)]; [eauto|].
      symmetry in He. apply encoded_inl in He as (cause & -> & Hcause).
      exists cause. split; [reflexivity|]. right. eauto.
    + intros e0 He0. revert Hrun.
      unfold apply_filter, open_video.
      unfold try_except, bind at 1 2, call, raise. rewrite He0.
      now intros [= <- <-].
Qed.

Lemma rendering_errors_wrapped_witness :
  exists c : clip,
    save_clip stuck_close_media "talk.mp4" 8 20 "short.mp4" demo_subtitles
              true ∅
    = (inl "Error saving clip: reader already closed",
       <["short.mp4" := VideoFile c "libx264" "aac"]> ∅) /\
    close_fails stuck_close_media c = Some "reader already closed".
Proof.
  destruct (rendering_errors_wrapped stuck_close_media) as [Hsave _].
  destruct (Hsave "talk.mp4" 8%Q 20%Q "short.mp4" demo_subtitles true ∅
                  (snd (save_clip stuck_close_media "talk.mp4" 8 20
                                  "short.mp4" demo_subtitles true ∅))
                  "Error saving clip: reader already closed" eq_refl)
    as [(cause & Hcause & Hreq) _].
  destruct Hreq as [Hsame|(c & Hdisk & _)].
  - exfalso. apply (f_equal (fun d => d !! "short.mp4")) in Hsame.
    vm_compute in Hsame. discriminate Hsame.
  - exists c. split; [|reflexivity].
    rewrite <- Hdisk. reflexivity.
Defined.

(** ** [apply_filter]: the filters that are there *)

(** For the names grayscale, bright, dark and contrast, and for every name
    outside the enumerated set, when the input opens and the transform
    applies, [apply_filter] asks for the encoding, with [libx264] and
    [aac], of a clip that shows the whole source frame without captions:
    with exactly the one transform of the name ([blackwhite],
    [colorx 1.5], [colorx 0.7], [lum_contrast 1.5]) for the four names, and
    the source as opened for a name outside the set.  It returns the output
    path when neither the encoder nor [close] raises. *)
Theorem apply_filter_dispatch (W : media_world)
    (input_path output_path filter_name : string)
    (disk : gmap string video_file) (w h : Z) :
  video_file_clip W input_path = inr (w, h) ->
  (forall t, fx_fails W t = None) ->
  ~ In filter_name missing_filters ->
  exists out : clip,
    snd (apply_filter W input_path output_path filter_name disk)
    = <[output_path := VideoFile out "libx264" "aac"]> disk /\
    (encode_fails W out output_path "libx264" "aac" = None ->
     close_fails W out = None ->
     fst (apply_filter W input_path output_path filter_name disk)
     = inr output_path) /\
    geometry out = geometry (source_clip w h) /\
    clip_layers out = [] /\
    (forall t, In (filter_name, t) filter_table -> clip_fx out = [t]) /\
    (~ In filter_name (map fst filter_table) -> out = source_clip w h).
Proof. apply apply_filter_reaches_encoder. Qed.

Lemma apply_filter_dispatch_witness :
  exists out : clip,
    apply_filter demo_media "talk.mp4" "dark.mp4" "dark" ∅
    = (inr "dark.mp4", <["dark.mp4" := VideoFile out "libx264" "aac"]> ∅) /\
    clip_fx out = [colorx 0.7].
Proof.
  destruct (apply_filter_dispatch demo_media "talk.mp4" "dark.mp4" "dark" ∅
              1920 1080)
    as (out & Hdisk & Hret & _ & _ & Hknown & _);
    [reflexivity|reflexivity|vm_compute; intuition discriminate|].
  exists out. split.
  - rewrite (surjective_pairing (apply_filter _ _ _ _ _)).
    rewrite Hdisk, Hret; reflexivity.
  - apply Hknown. cbn. tauto.
Defined.

(** ** Re-timing *)

Lemma retime_overlap (clip_start clip_end : Q) (s : segment) :
  let r := retime clip_start clip_end s in
  ((clip_start <= fst (fst s))%Q -> (fst (fst r) == fst (fst s) - clip_start)%Q) /\
  ((fst (fst s) <= clip_start)%Q -> (fst (fst r) == 0)%Q) /\
  ((snd (fst s) <= clip_end)%Q -> (snd (fst r) == snd (fst s) - clip_start)%Q) /\
  ((clip_end <= snd (fst s))%Q -> (snd (fst r) == clip_end - clip_start)%Q) /\
  snd r = snd s.
Proof.
  destruct s as [[st et] text]. unfold retime. cbn [fst snd].
  rewrite py_max_Qmax, py_min_Qmin.
  destruct (Q.max_spec 0 (st - clip_start)) as [[H1 E1]|[H1 E1]];
    destruct (Q.min_spec (et - clip_start) (clip_end - clip_start))
      as [[H2 E2]|[H2 E2]];
    rewrite E1, E2; repeat split; intros; lra.
Qed.

(** The captions show each overlapping segment for the time it shares with
    the clip: a segment that starts inside the clip is only shifted by
    [clip_start], one that starts before the clip starts at zero; a segment
    that ends inside the clip is only shifted by [clip_start], one that
    ends after the clip ends with the clip; the text is kept. *)
Theorem clip_subtitles_overlap (subtitles : list segment)
    (clip_start clip_end : Q) :
  Forall2
    (fun s r =>
       ((clip_start <= fst (fst s))%Q ->
        (fst (fst r) == fst (fst s) - clip_start)%Q) /\
       ((fst (fst s) <= clip_start)%Q -> (fst (fst r) == 0)%Q) /\
       ((snd (fst s) <= clip_end)%Q ->
        (snd (fst r) == snd (fst s) - clip_start)%Q) /\
       ((clip_end <= snd (fst s))%Q ->
        (snd (fst r) == clip_end - clip_start)%Q) /\
       snd r = snd s)
    (selected clip_start clip_end subtitles)
    (clip_subtitles subtitles clip_start clip_end).
Proof.
  rewrite clip_subtitles_selected.
  induction (selected clip_start clip_end subtitles) as [|s sel IH];
    constructor; [|exact IH].
  apply retime_overlap.
Qed.

Lemma clip_subtitles_separate (subtitles : list segment)
    (clip_start clip_end : Q) :
  StronglySorted ends_before subtitles ->
  StronglySorted ends_before (clip_subtitles subtitles clip_start clip_end).
Proof.
  induction 1 as [|[[st et] text] rest Hsorted IH Hall];
    cbn [clip_subtitles]; [constructor|].
  destruct (Py.Qltb clip_start et && Py.Qltb st clip_end); [|exact IH].
  constructor; [exact IH|].
  apply List.Forall_forall. intros r Hr.
  rewrite clip_subtitles_selected in Hr.
  apply in_map_iff in Hr as ([[st' et'] text'] & <- & Hsel).
  apply selected_In in Hsel as (Hin & _ & _).
  rewrite List.Forall_forall in Hall. specialize (Hall _ Hin).
  unfold ends_before, retime in *. cbn [fst snd] in *.
  rewrite py_max_Qmax, py_min_Qmin.
  apply Qle_trans with (et - clip_start)%Q; [apply Q.le_min_l|].
  apply Qle_trans with (st' - clip_start)%Q; [lra|apply Q.le_max_r].
Qed.

(** Subtitles that do not overlap one another give captions that do not
    overlap one another. *)
Theorem clip_subtitles_disjoint (subtitles : list segment)
    (clip_start clip_end : Q) :
  StronglySorted ends_before subtitles ->
  StronglySorted ends_before (clip_subtitles subtitles clip_start clip_end).
Proof. apply clip_subtitles_separate. Qed.

Lemma clip_subtitles_disjoint_witness :
  StronglySorted ends_before (clip_subtitles demo_subtitles 8 20).
Proof.
  apply (clip_subtitles_disjoint demo_subtitles 8 20).
  repeat constructor; unfold ends_before; cbn; lra.
Defined.

(** ** From transcription to captions *)

Lemma transcript_nonempty_segments (W : speech_world) (audio_path : string) :
  Forall (fun s => (fst (fst s) < snd (fst s))%Q) (transcript W audio_path).
Proof.
  unfold transcript.
  destruct (from_wav W audio_path) as [e|len_audio]; [constructor|].
  destruct (healthy W audio_path); [|constructor].
  apply List.Forall_forall. intros seg Hseg.
  apply recognized_In in Hseg as (i & text & Hi & _ & ->).
  apply range_In in Hi as [Hi _].
  now destruct (chunk_times_ok len_audio i text Hi) as (_ & Hlt & _).
Qed.

(** Whatever [generate_subtitles] returns can be handed to the caption
    step of [save_clip] for any clip range with [start_time < end_time]:
    every caption then has [0 <= rel_start <= rel_end <= end_time -
    start_time], and no two captions overlap. *)
Theorem transcript_captions_well_formed (W : speech_world)
    (audio_path : string) (st st' : os_state) (subtitles : list segment)
    (clip_start clip_end : Q) :
  generate_subtitles W audio_path st = (inr subtitles, st') ->
  (clip_start < clip_end)%Q ->
  Forall (fun r => (0 <= fst (fst r))%Q /\
                   (fst (fst r) <= snd (fst r))%Q /\
                   (snd (fst r) <= clip_end - clip_start)%Q)
         (clip_subtitles subtitles clip_start clip_end) /\
  StronglySorted ends_before (clip_subtitles subtitles clip_start clip_end).
Proof.
  intros Hrun Hclip.
  destruct (generate_subtitles_returns W audio_path st) as [st1 Hret].
  rewrite Hret in Hrun. injection Hrun as <- _.
  split.
  - apply clip_subtitles_ranges; [assumption|].
    apply transcript_nonempty_segments.
  - apply clip_subtitles_separate, transcript_separate.
Qed.

Lemma transcript_captions_well_formed_witness :
  StronglySorted ends_before
    (clip_subtitles
       [(chunk_start_time 0, chunk_end_time 25000 0, "hello");
        (chunk_start_time 20000, chunk_end_time 25000 20000, "hello")]
       8 22).
Proof.
  apply (transcript_captions_well_formed demo_speech "talk.wav" empty_os
           (snd (generate_subtitles demo_speech "talk.wav" empty_os)));
    reflexivity.
Defined.
